(** * DCA buying strategy: the ladder builder, the allocation search and the
      metrics projector of [streamlit_app.py], embedded and verified.

    The Python functions are duck-typed over their numbers: the same text
    runs on [float] (what the Streamlit front end passes in) and on exact
    [fractions.Fraction] values.  The embedding keeps that: the engine is
    written once over an interface [Num], and has two instances,
    - [Exact]: rationals, the arithmetic of [fractions.Fraction];
    - [B64]: IEEE 754 binary64 with round-to-nearest-even, the arithmetic of
      Python's [float], built on the Standard Library's [SpecFloat].
    Python integers are [Z], lists are [list], exceptions are an error
    monad, [st.warning] is a log returned with the value, and the
    [while True] loop takes fuel.

    Two things in the source fix the type of a number.  An [int] that meets
    a number is converted to the number's type, and on floats the conversion
    raises [OverflowError] when the int is beyond the float range; the
    interface says which ints fit.  And [build_display_df] starts its
    running totals at the literal [0.0], so its table is made of floats
    whatever the prices are; it is embedded at binary64. *)

From Stdlib Require Import String.
From Stdlib Require Import ZArith QArith Qround Qabs Qpower List Bool Lia Lqa.
From Stdlib Require Import Floats.SpecFloat.
Import ListNotations.

Local Open Scope Z_scope.

(** ** Exceptions *)

Inductive exn : Type :=
  | ZeroDivisionError
  | IndexError
  | OverflowError
  | ValueError.

Inductive result (A : Type) : Type :=
  | Ok (a : A)
  | Raise (e : exn).
Arguments Ok {A} a.
Arguments Raise {A} e.

Definition bind {A B : Type} (r : result A) (k : A -> result B) : result B :=
  match r with
  | Ok a => k a
  | Raise e => Raise e
  end.

Declare Scope py_scope.
Delimit Scope py_scope with py.
Notation "x <- r ;; k" := (bind r (fun x => k))
  (at level 61, r at next level, right associativity) : py_scope.
Local Open Scope py_scope.

(** ** Lists indexed the way Python indexes them (non-negative indices) *)

(** [l[i]]: [IndexError] out of range. *)
Definition list_get {A : Type} (l : list A) (i : nat) : result A :=
  match nth_error l i with
  | Some x => Ok x
  | None => Raise IndexError
  end.

(** [l[i] = v]: [IndexError] out of range, the list keeps its length. *)
Definition list_set {A : Type} (l : list A) (i : nat) (v : A) : result (list A) :=
  if (i <? length l)%nat
  then Ok (firstn i l ++ v :: skipn (S i) l)
  else Raise IndexError.

(** [for i in range(lo, lo + count)], threading the loop state. *)
Fixpoint for_range {S : Type} (body : nat -> S -> result S)
    (lo count : nat) (s : S) : result S :=
  match count with
  | O => Ok s
  | Datatypes.S count' => s' <- body lo s ;; for_range body (Datatypes.S lo) count' s'
  end.

(** [for x in l], threading the loop state. *)
Fixpoint for_each {X S : Type} (body : S -> X -> result S)
    (l : list X) (s : S) : result S :=
  match l with
  | [] => Ok s
  | x :: l' => s' <- body s x ;; for_each body l' s'
  end.

(** [range(n)] as a list of Python integers. *)
Definition range (n : Z) : list Z := map Z.of_nat (seq 0 (Z.to_nat n)).

(** ** The numeric interface *)

Class Num (num : Type) : Type := {
  of_int : Z -> num;               (* the number nearest to an int *)
  int_fits : Z -> bool;            (* the int converts to the type, no
                                      [OverflowError] *)
  add : num -> num -> num;
  sub : num -> num -> num;
  mul : num -> num -> num;
  quot : num -> num -> num;        (* [x / y] once [y] is known not to be 0 *)
  leb : num -> num -> bool;        (* [x <= y] *)
  ltb : num -> num -> bool;        (* [x < y] *)
  eqb : num -> num -> bool;        (* [x == y] *)
  ceil : num -> result Z;          (* [math.ceil] *)
  round2 : num -> num              (* [round(x, 2)] *)
}.

(** *** Exact rationals *)

(** [round(x)] of [fractions.Fraction]: to the nearest integer, ties to the
    even one. *)
Definition round_half_even (x : Q) : Z :=
  let (floor, remainder) := Z.div_eucl (Qnum x) (Z.pos (Qden x)) in
  if remainder * 2 <? Z.pos (Qden x) then floor
  else if Z.pos (Qden x) <? remainder * 2 then floor + 1
  else if Z.even floor then floor
  else floor + 1.

Definition Q_round2 (x : Q) : Q := Qred (round_half_even (x * 100) # 100).

#[global] Instance Exact : Num Q := {
  of_int := inject_Z;
  int_fits := fun _ => true;
  add := Qplus;
  sub := Qminus;
  mul := Qmult;
  quot := Qdiv;
  leb := Qle_bool;
  ltb := fun x y => negb (Qle_bool y x);
  eqb := Qeq_bool;
  ceil := fun x => Ok (Qceiling x);
  round2 := Q_round2
}.

(** *** IEEE 754 binary64 *)

Module B64.

Definition prec : Z := 53.
Definition emax : Z := 1024.

Definition t : Type := spec_float.

(** The value of a finite float, as a rational. *)
Definition to_Q (x : t) : Q :=
  match x with
  | S754_finite s m e =>
      let v := cond_Zopp s (Z.pos m) in
      if 0 <=? e then inject_Z (v * 2 ^ e) else v # Z.to_pos (2 ^ (- e))
  | _ => 0
  end.

(** The float nearest to [n / d] (ties to even), for integers [n] and
    [d > 0]: the correctly rounded quotient. *)
Definition of_ratio (n : Z) (d : positive) : t :=
  match n with
  | Z0 => S754_zero false
  | Z.pos m => SFdiv prec emax (S754_finite false m 0) (S754_finite false d 0)
  | Z.neg m => SFdiv prec emax (S754_finite true m 0) (S754_finite false d 0)
  end.

Definition of_Q (q : Q) : t := of_ratio (Qnum q) (Qden q).

(** An [int] converted to [float]: the nearest float, ties to even.  An int
    that rounds beyond the largest float gives an infinity here; Python
    raises [OverflowError] ("int too large to convert to float") at that
    point, which [fits_float] decides. *)
Definition of_Z (z : Z) : t := binary_normalize prec emax z 0 false.

Definition fits_float (z : Z) : bool :=
  match of_Z z with
  | S754_infinity _ => false
  | _ => true
  end.

(** [math.ceil]: exact on finite floats, [OverflowError] on an infinity,
    [ValueError] on a NaN. *)
Definition b64_ceil (x : t) : result Z :=
  match x with
  | S754_zero _ => Ok 0
  | S754_finite _ _ _ => Ok (Qceiling (to_Q x))
  | S754_infinity _ => Raise OverflowError
  | S754_nan => Raise ValueError
  end.

(** [round(x, 2)]: the exact value is rounded to two decimals, ties to even,
    and the decimal result is converted back to the nearest float.  Zeros,
    infinities and NaN come back unchanged; a result that rounds to zero
    keeps the sign. *)
Definition b64_round2 (x : t) : t :=
  match x with
  | S754_finite s _ _ =>
      match round_half_even (to_Q x * 100) with
      | Z0 => S754_zero s
      | r => of_ratio r 100
      end
  | _ => x
  end.

#[export] Instance Float : Num t := {
  of_int := of_Z;
  int_fits := fits_float;
  add := SFadd prec emax;
  sub := SFsub prec emax;
  mul := SFmul prec emax;
  quot := SFdiv prec emax;
  leb := SFleb;
  ltb := SFltb;
  eqb := SFeqb;
  ceil := b64_ceil;
  round2 := b64_round2
}.

End B64.

(** ** The engine, over any [Num] *)

Section Engine.

Context {num : Type} {N : Num num}.

Definition zero : num := of_int 0.

(** An [int] operand of [number * int] or [number / int] is converted to the
    type of the number first: [OverflowError] when it does not fit.  (The
    int literals 0, 1 and 100 fit every type and are written [of_int].) *)
Definition int_operand (z : Z) : result num :=
  if int_fits z then Ok (of_int z) else Raise OverflowError.

(** [x / y]: Python raises [ZeroDivisionError] on a divisor equal to 0. *)
Definition py_div (x y : num) : result num :=
  if eqb y zero then Raise ZeroDivisionError else Ok (quot x y).

(** *** 1) Price-level construction *)

Definition warning_start_above_floor : string :=
  "Starting price must be ABOVE the Lowest Expected Price.".
Definition warning_interval_positive : string :=
  "Interval value must be positive.".

(** One evaluation of the step rule: the [if interval_type == "$"] of the
    loop body. *)
Definition next_price_of (interval_type : string) (interval_value current_price : num)
    : num :=
  if String.eqb interval_type "$"
  then sub current_price interval_value
  else mul current_price (sub (of_int 1) interval_value).

(** The [while True] loop.  [None] is fuel exhausted: the loop has not
    reached its [break] within [fuel] iterations. *)
Fixpoint price_loop (fuel : nat) (interval_type : string)
    (interval_value end_price current_price : num) (prices : list num)
    : option (list num) :=
  match fuel with
  | O => None
  | S fuel' =>
      let next_price := next_price_of interval_type interval_value current_price in
      if leb next_price end_price then Some prices
      else price_loop fuel' interval_type interval_value end_price
             next_price (prices ++ [next_price])
  end.

(** [build_price_levels]: the warnings shown with [st.warning], and the list
    returned. *)
Definition build_price_levels (fuel : nat) (start_price end_price : num)
    (interval_type : string) (interval_value : num)
    : option (list string * list num) :=
  if leb start_price end_price then
    Some ([warning_start_above_floor], [round2 start_price])
  else if leb interval_value zero then
    Some ([warning_interval_positive], [round2 start_price; round2 end_price])
  else
    match price_loop fuel interval_type interval_value end_price
            start_price [start_price] with
    | None => None
    | Some prices => Some ([], map round2 (prices ++ [end_price]))
    end.

(** *** 2) Allocation / buy-sizing logic *)

(** [min_needed] is either the quotient (a number) or the integer literal 0. *)
Inductive pyval : Type :=
  | PyInt (z : Z)
  | PyNum (x : num).

Definition py_lt0 (v : pyval) : bool :=
  match v with
  | PyInt z => z <? 0
  | PyNum x => ltb x zero
  end.

Definition py_ceil (v : pyval) : result Z :=
  match v with
  | PyInt z => Ok z
  | PyNum x => ceil x
  end.

(** The state of the inner loop. *)
Record acc : Type := mk_acc {
  S_price : num;
  S_shares : Z;
  Qs : list Z
}.

(** [buy_i] at price [p_i], from the running totals.  [lhs] multiplies a
    number by the int [S_shares]. *)
Definition buy_at (avg_cost_margin p_i : num) (s_price : num) (s_shares : Z)
    : result Z :=
  shares <- int_operand s_shares ;;
  let lhs := sub s_price (mul (mul (add (of_int 1) avg_cost_margin) p_i)
                              shares) in
  let denom := mul avg_cost_margin p_i in
  min_needed <- (if negb (eqb denom zero)
                 then x <- py_div lhs denom ;; Ok (PyNum x)
                 else Ok (PyInt 0)) ;;
  let min_needed := if py_lt0 min_needed then PyInt 0 else min_needed in
  py_ceil min_needed.

(** The body of [for i in range(1, len(prices))]. *)
Definition topup_step (prices : list num) (avg_cost_margin : num)
    (i : nat) (a : acc) : result acc :=
  p_i <- list_get prices i ;;
  buy_i <- buy_at avg_cost_margin p_i (S_price a) (S_shares a) ;;
  Q <- list_set (Qs a) i buy_i ;;
  bought <- int_operand buy_i ;;
  Ok {| S_price := add (S_price a) (mul p_i bought);
        S_shares := S_shares a + buy_i;
        Qs := Q |}.

(** [sum(p*q for p,q in zip(prices, Q))]: the generator yields one product
    at a time, each converting its quantity, and [sum] adds it to the total
    so far, starting from the integer 0.  (From CPython 3.12 on, [sum] over
    floats also compensates the rounding errors of the partial sums; that
    changes no exact sum.) *)
Definition sum_step (total : num) (pq : num * Z) : result num :=
  q <- int_operand (snd pq) ;;
  Ok (add total (mul (fst pq) q)).

Definition sum_products (prices : list num) (Q : list Z) : result num :=
  for_each sum_step (combine prices Q) zero.

(** The schedule induced by one candidate [Q0]: the body of the outer loop up
    to [total_cost]. *)
Definition schedule (prices : list num) (avg_cost_margin : num) (Q0 : Z)
    : result (list Z * num) :=
  Q <- list_set (repeat 0 (length prices)) 0 Q0 ;;
  p_0 <- list_get prices 0 ;;
  lot <- int_operand Q0 ;;
  a <- for_range (topup_step prices avg_cost_margin) 1 (length prices - 1)
         {| S_price := mul p_0 lot; S_shares := Q0; Qs := Q |} ;;
  total_cost <- sum_products prices (Qs a) ;;
  Ok (Qs a, total_cost).

(** The state of the outer loop: [best_Q0] and [best_solution]. *)
Definition best : Type := (Z * option (list Z * num))%type.

Definition scan_step (prices : list num) (budget avg_cost_margin : num)
    (b : best) (Q0 : Z) : result best :=
  sol <- schedule prices avg_cost_margin Q0 ;;
  if leb (snd sol) budget then
    if Q0 >? fst b then Ok (Q0, Some sol) else Ok b
  else Ok b.

(** The whole [for Q0 in range(max_Q0_search + 1)] loop. *)
Definition scan (prices : list num) (budget avg_cost_margin : num)
    (max_Q0_search : Z) : result best :=
  for_each (scan_step prices budget avg_cost_margin)
    (range (max_Q0_search + 1)) (0, None).

Definition find_optimal_allocation (prices : list num)
    (budget avg_cost_margin : num) (max_Q0_search : Z)
    : result (option (list Z * num)) :=
  b <- scan prices budget avg_cost_margin max_Q0_search ;;
  Ok (snd b).

(** *** Notions used to state the properties *)

(** The purchases after level 0, by recursion on the remaining prices: what
    the index loop of [schedule] computes (lemma [for_range_topups]). *)
Fixpoint topups (avg_cost_margin : num) (ps : list num) (s_price : num)
    (s_shares : Z) : result (list Z) :=
  match ps with
  | [] => Ok []
  | p_i :: ps' =>
      buy_i <- buy_at avg_cost_margin p_i s_price s_shares ;;
      bought <- int_operand buy_i ;;
      rest <- topups avg_cost_margin ps'
                (add s_price (mul p_i bought)) (s_shares + buy_i) ;;
      Ok (buy_i :: rest)
  end.

(** The cost of a level and of a schedule with every quantity converted:
    what [sum_products] returns when it returns (lemma [sum_products_Ok]). *)
Definition py_sum (l : list num) : num := fold_left add l zero.

Definition cost_of (pq : num * Z) : num := mul (fst pq) (of_int (snd pq)).

Definition total_cost_of (prices : list num) (Q : list Z) : num :=
  py_sum (map cost_of (combine prices Q)).

(** A candidate is feasible when its schedule is built without an exception
    and costs no more than the budget: the test [total_cost <= budget]. *)
Definition feasible (prices : list num) (budget m : num) (Q0 : Z) : Prop :=
  exists sol, schedule prices m Q0 = Ok sol /\ leb (snd sol) budget = true.

(** What the loop state records about the candidates already tried. *)
Definition best_of (prices : list num) (budget m : num)
    (tried : list Z) (b : best) : Prop :=
  (forall q, In q tried -> feasible prices budget m q -> q <= fst b) /\
  match snd b with
  | None => fst b = 0
  | Some sol =>
      0 < fst b /\ In (fst b) tried /\
      schedule prices m (fst b) = Ok sol /\ leb (snd sol) budget = true
  end.

(** The cumulative shares and the cumulative cost after level [i]. *)
Definition cum_shares (shares : list Z) (i : nat) : Z :=
  fold_left Z.add (firstn (S i) shares) 0.


End Engine.

(** ** 3) The display table, on floats *)

(** [S_price = 0.0] and [cum_invest = 0.0] are float literals, and so is the
    [0.0] of an average without shares: whatever the prices are, the running
    totals, the averages and the deviations are floats.  The table is
    embedded at [float], the type of the prices [main] passes. *)

Section Display.

#[local] Existing Instance B64.Float.
Record row : Type := mk_row {
  Price : B64.t;
  Shares_Purchased : Z;
  Average_Purchase_Price : B64.t;
  Pct_Diff : B64.t;
  Cost_of_Purchase : B64.t;
  Cumulative_Investment : B64.t;
  Cumulative_Shares : Z
}.

Record df_state : Type := mk_df {
  df_S_price : B64.t;
  df_S_shares : Z;
  df_cum_invest : B64.t;
  df_rows : list row
}.

(** [avg_cost] and [diff_vs_avg] of one row, before rounding.  [S_price /
    S_shares] divides a float by an int. *)
Definition avg_cost_of (s_price : B64.t) (s_shares : Z) : result B64.t :=
  if s_shares >? 0
  then shares <- int_operand s_shares ;; py_div s_price shares
  else Ok zero.

Definition diff_vs_avg_of (p avg_cost : B64.t) : result B64.t :=
  if negb (eqb avg_cost zero)
  then d <- py_div (sub p avg_cost) avg_cost ;; Ok (mul d (of_int 100))
  else Ok zero.

(** The body of [for p, q in zip(prices, shares)].  [p * q] multiplies a
    float by an int. *)
Definition display_step (st : df_state) (pq : B64.t * Z) : result df_state :=
  let (p, q) := pq in
  bought <- int_operand q ;;
  let cost := mul p bought in
  let s_price := add (df_S_price st) cost in
  let s_shares := df_S_shares st + q in
  avg_cost <- avg_cost_of s_price s_shares ;;
  diff_vs_avg <- diff_vs_avg_of p avg_cost ;;
  let cum_invest := add (df_cum_invest st) cost in
  Ok {| df_S_price := s_price;
        df_S_shares := s_shares;
        df_cum_invest := cum_invest;
        df_rows := df_rows st ++
          [ {| Price := round2 p;
               Shares_Purchased := q;
               Average_Purchase_Price := round2 avg_cost;
               Pct_Diff := round2 diff_vs_avg;
               Cost_of_Purchase := round2 cost;
               Cumulative_Investment := round2 cum_invest;
               Cumulative_Shares := s_shares |} ] |}.

Definition build_display_df (prices : list B64.t) (shares : list Z)
    : result (list row) :=
  st <- for_each display_step (combine prices shares)
          {| df_S_price := zero; df_S_shares := 0;
             df_cum_invest := zero; df_rows := [] |} ;;
  Ok (df_rows st).

(** *** Notions used to state the properties of the table *)

(** The running cost after level [i]: the costs of the levels added one by
    one to [0.0]. *)
Definition running_cost (prices : list B64.t) (shares : list Z) (i : nat)
    : B64.t :=
  fold_left add (map cost_of (firstn (S i) (combine prices shares))) zero.

(** The running average cost and the percentage deviation as the
    specification words them. *)
Definition avg_cost_spec (cost : B64.t) (shares : Z) : B64.t :=
  if shares =? 0 then zero else quot cost (of_int shares).

Definition deviation_spec (p avg_cost : B64.t) : B64.t :=
  if eqb avg_cost zero then zero
  else mul (quot (sub p avg_cost) avg_cost) (of_int 100).

(** The row of the table for a level, from the running totals that include
    the level. *)
Definition row_of (p : B64.t) (q : Z) (s_price : B64.t) (s_shares : Z)
    (cum_invest : B64.t) : row :=
  {| Price := round2 p;
     Shares_Purchased := q;
     Average_Purchase_Price := round2 (avg_cost_spec s_price s_shares);
     Pct_Diff := round2 (deviation_spec p (avg_cost_spec s_price s_shares));
     Cost_of_Purchase := round2 (mul p (of_int q));
     Cumulative_Investment := round2 cum_invest;
     Cumulative_Shares := s_shares |}.

(** Every int the table converts fits a float: the quantity of each level,
    and the shares held after a level when there are any. *)
Definition table_ints_fit (shares : list Z) : Prop :=
  forall i q, nth_error shares i = Some q ->
    int_fits q = true /\
    (0 < cum_shares shares i -> int_fits (cum_shares shares i) = true).

(** ** 4) The application: the body of the "Run Simulation" button *)

(** The default of [max_Q0_search], which [main] does not override. *)
Definition max_Q0_search_default : Z := 10000.

Definition no_solution_message : string :=
  "No feasible solution found with these parameters.".

(** What the page shows after the run: the [st.error] message, or the total
    of [st.success] (rounded to 2 decimals) with the table of
    [st.dataframe]. *)
Inductive screen : Type :=
  | Failure (message : string)
  | Success (total_spent : B64.t) (df : list row).

(** [prices = build_price_levels(...)], [result = find_optimal_allocation(...)],
    [if not result: st.error(...); return], then the table.  A result is
    [None] or a pair, and only [None] is falsy.  The outer [option] is the
    fuel of the ladder loop; the warnings are those of the ladder builder.
    The numbers are the floats of [st.number_input]; the budget, an int
    there, only meets a float in [total_cost <= budget], which compares the
    two exactly, and is given here as the float of the same value. *)
Definition run_simulation (fuel : nat) (budget start_price end_price : B64.t)
    (interval_type : string) (interval_value margin : B64.t)
    : option (list string * result screen) :=
  match build_price_levels fuel start_price end_price interval_type
          interval_value with
  | None => None
  | Some (warnings, prices) =>
      Some (warnings,
            result <- find_optimal_allocation prices budget margin
                        max_Q0_search_default ;;
            match result with
            | None => Ok (Failure no_solution_message)
            | Some (Q, total_spent) =>
                df <- build_display_df prices Q ;;
                Ok (Success (round2 total_spent) df)
            end)
  end.

End Display.

(** ** Notions used to state the properties of exact ladders *)

Module Ladder.

Local Open Scope Q_scope.

Fixpoint strictly_decreasing (l : list Q) : Prop :=
  match l with
  | x :: ((y :: _) as l') => y < x /\ strictly_decreasing l'
  | _ => True
  end.

Fixpoint non_increasing (l : list Q) : Prop :=
  match l with
  | x :: ((y :: _) as l') => y <= x /\ non_increasing l'
  | _ => True
  end.

(** The prices the loop appends after [current]: each is below the one
    before it and above the floor. *)
Fixpoint descent (floor current : Q) (tail : list Q) : Prop :=
  match tail with
  | [] => True
  | x :: tail' => x < current /\ floor < x /\ descent floor x tail'
  end.

End Ladder.

(** ** The worked example of the specification *)

Module Demo.

Local Open Scope Q_scope.

Definition ladder : list Q := [75; 145 # 2; 70; 135 # 2; 65; 125 # 2; 60].
Definition shares : list Z := [4; 3; 13; 38; 114; 350; 1110]%Z.
(** 99877.50, in the form the exact sum takes. *)
Definition cost : Q := 799020 # 8.

(** The table of the run with an inverted start (50.0) and floor (60.0), a
    budget of 1000: one row. *)
Definition inverted_row : row :=
  {| Price := B64.of_Q 50; Shares_Purchased := 20;
     Average_Purchase_Price := B64.of_Q 50; Pct_Diff := B64.of_Z 0;
     Cost_of_Purchase := B64.of_Q 1000;
     Cumulative_Investment := B64.of_Q 1000;
     Cumulative_Shares := 20 |}.

End Demo.

(** * Proofs *)

(** ** The error monad and the loop combinators *)

Lemma bind_Ok {A B : Type} (r : result A) (k : A -> result B) (b : B) :
  bind r k = Ok b <-> exists a, r = Ok a /\ k a = Ok b.
Proof.
  destruct r as [a|e]; simpl; split.
  - intros Hk. exists a. split; [reflexivity | exact Hk].
  - intros (a' & Ha & Hk). injection Ha as ->. exact Hk.
  - discriminate.
  - intros (a' & Ha & _). discriminate.
Qed.

Lemma bind_Raise {A B : Type} (r : result A) (k : A -> result B) (e : exn) :
  bind r k = Raise e <-> r = Raise e \/ exists a, r = Ok a /\ k a = Raise e.
Proof.
  destruct r as [a|e']; simpl; split.
  - intros Hk. right. exists a. split; [reflexivity | exact Hk].
  - intros [Hr | (a' & Ha & Hk)]; [discriminate | injection Ha as ->; exact Hk].
  - intros [= ->]. left. reflexivity.
  - intros [[= ->] | (a' & Ha & _)]; [reflexivity | discriminate].
Qed.

Lemma in_range (n q : Z) : In q (range n) <-> 0 <= q < n.
Proof.
  unfold range. rewrite in_map_iff. split.
  - intros (k & <- & Hk). apply in_seq in Hk. lia.
  - intros Hq. exists (Z.to_nat q). split; [lia|]. apply in_seq. lia.
Qed.

Lemma list_get_app_here {A : Type} (pre : list A) (x : A) (post : list A) :
  list_get (pre ++ x :: post) (length pre) = Ok x.
Proof.
  unfold list_get. rewrite nth_error_app2 by lia.
  rewrite Nat.sub_diag. reflexivity.
Qed.

Lemma list_set_app_here {A : Type} (pre : list A) (x v : A) (post : list A) :
  list_set (pre ++ x :: post) (length pre) v = Ok (pre ++ v :: post).
Proof.
  unfold list_set.
  assert (Hlt : (length pre <? length (pre ++ x :: post))%nat = true).
  { apply Nat.ltb_lt. rewrite length_app. simpl. lia. }
  rewrite Hlt. f_equal. f_equal.
  - rewrite firstn_app, Nat.sub_diag, firstn_all. simpl. apply app_nil_r.
  - f_equal. change (S (length pre)) with (1 + length pre)%nat.
    rewrite skipn_app.
    replace (1 + length pre - length pre)%nat with 1%nat by lia.
    rewrite skipn_all2 by lia. reflexivity.
Qed.

(** ** Facts that hold for every number type *)

Section EngineFacts.

Context {num : Type} {N : Num num}.

(** *** Int operands *)

Lemma int_operand_Ok (z : Z) (x : num) :
  int_operand z = Ok x <-> int_fits z = true /\ x = of_int z.
Proof.
  unfold int_operand. destruct (int_fits z); split.
  - intros [= <-]. split; reflexivity.
  - intros [_ ->]. reflexivity.
  - discriminate.
  - intros [H _]. discriminate.
Qed.

Lemma int_operand_fits (z : Z) :
  int_fits z = true -> int_operand z = Ok (of_int z).
Proof. intros H. apply int_operand_Ok. split; [exact H | reflexivity]. Qed.

Lemma int_operand_Raise (z : Z) (e : exn) :
  int_operand z = Raise e -> e = OverflowError.
Proof.
  unfold int_operand. destruct (int_fits z); [discriminate|].
  intros [= <-]. reflexivity.
Qed.

(** *** The sum of the products *)

Lemma for_each_sum_step_Ok (l : list (num * Z)) (a c : num) :
  for_each sum_step l a = Ok c -> c = fold_left add (map cost_of l) a.
Proof.
  revert a. induction l as [|[p q] l IH]; intros a; simpl.
  - intros [= <-]. reflexivity.
  - intros H. apply bind_Ok in H as (a' & Hstep & H).
    unfold sum_step in Hstep. apply bind_Ok in Hstep as (x & Hx & [= <-]).
    apply int_operand_Ok in Hx as [_ ->]. apply IH. exact H.
Qed.

Lemma for_each_sum_step_fits (l : list (num * Z)) (a : num) :
  Forall (fun pq => int_fits (snd pq) = true) l ->
  for_each sum_step l a = Ok (fold_left add (map cost_of l) a).
Proof.
  intros Hall. revert a. induction Hall as [|[p q] l Hq _ IH]; intros a; simpl.
  - reflexivity.
  - unfold sum_step at 1. cbn [fst snd] in *.
    rewrite (int_operand_fits q Hq). simpl. apply IH.
Qed.

Lemma for_each_sum_step_Raise (l : list (num * Z)) (a : num) (e : exn) :
  for_each sum_step l a = Raise e -> e = OverflowError.
Proof.
  revert a. induction l as [|[p q] l IH]; intros a; simpl; [discriminate|].
  intros H. apply bind_Raise in H as [H | (a' & _ & H)]; [|exact (IH _ H)].
  unfold sum_step in H. apply bind_Raise in H as [H | (x & _ & H)];
    [exact (int_operand_Raise _ _ H) | discriminate].
Qed.

Lemma sum_products_Ok (prices : list num) (Q : list Z) (c : num) :
  sum_products prices Q = Ok c -> c = total_cost_of prices Q.
Proof. apply for_each_sum_step_Ok. Qed.

Lemma sum_products_fits (prices : list num) (Q : list Z) :
  Forall (fun q => int_fits q = true) Q ->
  sum_products prices Q = Ok (total_cost_of prices Q).
Proof.
  intros Hall. apply for_each_sum_step_fits.
  apply Forall_forall. intros [p q] Hin. apply in_combine_r in Hin.
  rewrite Forall_forall in Hall. apply Hall. exact Hin.
Qed.

(** *** The inner loop, read structurally *)

Lemma for_range_topups (m : num) (ps pre : list num) (qpre : list Z)
    (sp : num) (ss : Z) :
  length qpre = length pre ->
  (a <- for_range (topup_step (pre ++ ps) m) (length pre) (length ps)
          {| S_price := sp; S_shares := ss;
             Qs := qpre ++ repeat 0 (length ps) |} ;;
   Ok (Qs a))
  = (bs <- topups m ps sp ss ;; Ok (qpre ++ bs)).
Proof.
  revert pre qpre sp ss.
  induction ps as [|p ps IH]; intros pre qpre sp ss Hlen; simpl.
  - reflexivity.
  - unfold topup_step at 1. rewrite list_get_app_here. simpl.
    destruct (buy_at m p sp ss) as [b|e]; simpl; [|reflexivity].
    rewrite <- Hlen, list_set_app_here. simpl.
    destruct (int_operand b) as [bought|e]; simpl; [|reflexivity].
    replace (pre ++ p :: ps) with ((pre ++ [p]) ++ ps)
      by (rewrite <- app_assoc; reflexivity).
    replace (qpre ++ b :: repeat 0 (length ps))
      with ((qpre ++ [b]) ++ repeat 0 (length ps))
      by (rewrite <- app_assoc; reflexivity).
    replace (S (length qpre)) with (length (pre ++ [p]))
      by (rewrite length_app; simpl; lia).
    rewrite IH by (rewrite !length_app; simpl; lia).
    destruct (topups m ps _ _) as [bs|e]; simpl; [|reflexivity].
    rewrite <- app_assoc. reflexivity.
Qed.

Lemma schedule_nil (m : num) (Q0 : Z) : schedule [] m Q0 = Raise IndexError.
Proof. reflexivity. Qed.

Lemma schedule_cons (m p_0 : num) (ps : list num) (Q0 : Z) :
  schedule (p_0 :: ps) m Q0
  = (lot <- int_operand Q0 ;;
     bs <- topups m ps (mul p_0 lot) Q0 ;;
     total_cost <- sum_products (p_0 :: ps) (Q0 :: bs) ;;
     Ok (Q0 :: bs, total_cost)).
Proof.
  unfold schedule.
  replace (length (p_0 :: ps) - 1)%nat with (length ps) by (simpl; lia).
  change (list_set (repeat 0 (length (p_0 :: ps))) 0 Q0)
    with (Ok (A := list Z) (Q0 :: repeat 0 (length ps))).
  change (list_get (p_0 :: ps) 0) with (Ok (A := num) p_0).
  cbn [bind].
  destruct (int_operand Q0) as [lot|e]; cbn [bind]; [|reflexivity].
  pose proof (for_range_topups m ps [p_0] [Q0] (mul p_0 lot) Q0 eq_refl) as H.
  simpl in H.
  destruct (for_range _ 1 (length ps) _) as [a|e]; simpl in *.
  - destruct (topups m ps _ _) as [bs|e]; simpl in *; [|discriminate].
    injection H as ->. reflexivity.
  - destruct (topups m ps _ _) as [bs|e']; simpl in *; [discriminate|].
    injection H as ->. reflexivity.
Qed.

Lemma topups_length (m : num) (ps : list num) (sp : num) (ss : Z) (bs : list Z) :
  topups m ps sp ss = Ok bs -> length bs = length ps.
Proof.
  revert sp ss bs. induction ps as [|p ps IH]; intros sp ss bs; simpl.
  - intros [= <-]. reflexivity.
  - intros H. apply bind_Ok in H as (b & _ & H).
    apply bind_Ok in H as (bought & _ & H).
    apply bind_Ok in H as (rest & Hrest & [= <-]).
    simpl. f_equal. eapply IH. exact Hrest.
Qed.

(** What an [Ok] schedule looks like. *)
Lemma schedule_Ok (prices : list num) (m : num) (Q0 : Z) (Q : list Z) (c : num) :
  schedule prices m Q0 = Ok (Q, c) ->
  exists p_0 ps bs,
    prices = p_0 :: ps /\ Q = Q0 :: bs /\
    topups m ps (mul p_0 (of_int Q0)) Q0 = Ok bs /\
    c = total_cost_of prices Q.
Proof.
  destruct prices as [|p_0 ps]; [rewrite schedule_nil; discriminate|].
  rewrite schedule_cons. intros H.
  apply bind_Ok in H as (lot & Hlot & H).
  apply int_operand_Ok in Hlot as [_ ->].
  apply bind_Ok in H as (bs & Hbs & H).
  apply bind_Ok in H as (total_cost & Hsum & [= <- <-]).
  exists p_0, ps, bs. repeat split; [exact Hbs|].
  apply sum_products_Ok. exact Hsum.
Qed.

Lemma schedule_sum (prices : list num) (m : num) (Q0 : Z) (Q : list Z) (c : num) :
  schedule prices m Q0 = Ok (Q, c) -> sum_products prices Q = Ok c.
Proof.
  destruct prices as [|p_0 ps]; [rewrite schedule_nil; discriminate|].
  rewrite schedule_cons. intros H.
  apply bind_Ok in H as (lot & _ & H).
  apply bind_Ok in H as (bs & _ & H).
  apply bind_Ok in H as (total_cost & Hsum & [= <- <-]). exact Hsum.
Qed.

(** *** The outer loop *)

Lemma best_of_nonneg prices budget m tried b :
  best_of prices budget m tried b -> 0 <= fst b.
Proof.
  intros [_ H]. destruct (snd b); [destruct H; lia | lia].
Qed.

Lemma scan_step_best_of prices budget m tried b Q0 b' :
  best_of prices budget m tried b ->
  scan_step prices budget m b Q0 = Ok b' ->
  best_of prices budget m (tried ++ [Q0]) b'.
Proof.
  intros Hb Hstep. pose proof (best_of_nonneg _ _ _ _ _ Hb) as Hnn.
  destruct Hb as [Hmax Hsol].
  unfold scan_step in Hstep.
  apply bind_Ok in Hstep as (sol & Hsched & Hstep).
  assert (Hold : forall q, In q tried -> feasible prices budget m q -> q <= fst b)
    by exact Hmax.
  destruct (leb (snd sol) budget) eqn:Hle.
  - destruct (Q0 >? fst b) eqn:Hgt; injection Hstep as <-.
    + apply Z.gtb_lt in Hgt. split; simpl.
      * intros q Hin Hq. apply in_app_or in Hin as [Hin | [<- | []]]; [|lia].
        specialize (Hold q Hin Hq). lia.
      * repeat split; [lia | apply in_or_app; right; left; reflexivity
                      | exact Hsched | exact Hle].
    + assert (Q0 <= fst b) by (rewrite Z.gtb_ltb in Hgt; apply Z.ltb_ge in Hgt; lia).
      split.
      * intros q Hin Hq. apply in_app_or in Hin as [Hin | [<- | []]]; [|lia].
        apply Hold; assumption.
      * destruct (snd b) as [sol'|]; [|exact Hsol].
        destruct Hsol as (H1 & H2 & H3 & H4).
        repeat split; try assumption. apply in_or_app. left. exact H2.
  - injection Hstep as <-. split.
    + intros q Hin Hq. apply in_app_or in Hin as [Hin | [<- | []]].
      * apply Hold; assumption.
      * destruct Hq as (sol' & Hs' & Hle'). rewrite Hsched in Hs'.
        injection Hs' as <-. congruence.
    + destruct (snd b) as [sol'|]; [|exact Hsol].
      destruct Hsol as (H1 & H2 & H3 & H4).
      repeat split; try assumption. apply in_or_app. left. exact H2.
Qed.

Lemma for_each_best_of prices budget m l tried b b' :
  best_of prices budget m tried b ->
  for_each (scan_step prices budget m) l b = Ok b' ->
  best_of prices budget m (tried ++ l) b'.
Proof.
  revert tried b. induction l as [|Q0 l IH]; intros tried b Hb Hrun; simpl in Hrun.
  - injection Hrun as <-. rewrite app_nil_r. exact Hb.
  - apply bind_Ok in Hrun as (b1 & Hstep & Hrun).
    replace (tried ++ Q0 :: l) with ((tried ++ [Q0]) ++ l)
      by (rewrite <- app_assoc; reflexivity).
    eapply IH; [|exact Hrun].
    eapply scan_step_best_of; eassumption.
Qed.

Lemma scan_best_of prices budget m max_Q0_search b :
  scan prices budget m max_Q0_search = Ok b ->
  best_of prices budget m (range (max_Q0_search + 1)) b.
Proof.
  intros Hrun. unfold scan in Hrun.
  apply (for_each_best_of prices budget m _ [] (0, None)) in Hrun; [exact Hrun|].
  split; simpl; [intros q [] | reflexivity].
Qed.

(** The loop raises only what some schedule raises. *)
Lemma for_each_scan_total prices budget m l b :
  (forall q, In q l -> exists sol, schedule prices m q = Ok sol) ->
  exists b', for_each (scan_step prices budget m) l b = Ok b'.
Proof.
  revert b. induction l as [|Q0 l IH]; intros b Hall; simpl.
  - exists b. reflexivity.
  - destruct (Hall Q0 (or_introl eq_refl)) as (sol & Hsol).
    unfold scan_step at 1. rewrite Hsol. simpl.
    destruct (leb (snd sol) budget); [destruct (Q0 >? fst b)|]; simpl;
      apply IH; intros q Hq; apply Hall; right; exact Hq.
Qed.

Lemma find_Ok prices budget m max_Q0_search r :
  find_optimal_allocation prices budget m max_Q0_search = Ok r <->
  exists best_Q0, scan prices budget m max_Q0_search = Ok (best_Q0, r).
Proof.
  unfold find_optimal_allocation. rewrite bind_Ok. split.
  - intros ([q r'] & Hscan & [= <-]). exists q. exact Hscan.
  - intros (q & Hscan). exists (q, r). split; [exact Hscan | reflexivity].
Qed.

Lemma for_each_scan_schedules prices budget m l b b' :
  for_each (scan_step prices budget m) l b = Ok b' ->
  forall q, In q l -> exists sol, schedule prices m q = Ok sol.
Proof.
  revert b. induction l as [|Q0 l IH]; intros b Hrun q Hq; [destruct Hq|].
  simpl in Hrun. apply bind_Ok in Hrun as (b1 & Hstep & Hrun).
  destruct Hq as [<- | Hq]; [|eapply IH; eassumption].
  unfold scan_step in Hstep. apply bind_Ok in Hstep as (sol & Hsol & _).
  exists sol. exact Hsol.
Qed.

Lemma scan_total prices budget m max_Q0_search :
  (forall q, 0 <= q <= max_Q0_search -> exists sol, schedule prices m q = Ok sol) ->
  exists b, scan prices budget m max_Q0_search = Ok b.
Proof.
  intros Hall. apply for_each_scan_total.
  intros q Hq. apply in_range in Hq. apply Hall. lia.
Qed.

(** *** The purchases are non-negative *)

Section Ceil.

Hypothesis ceil_nonneg :
  forall (x : num) (z : Z), ltb x zero = false -> ceil x = Ok z -> 0 <= z.

Lemma buy_at_nonneg m p_i sp ss b : buy_at m p_i sp ss = Ok b -> 0 <= b.
Proof.
  unfold buy_at, py_div. intros H. apply bind_Ok in H as (shares & _ & H).
  revert H. destruct (eqb (mul m p_i) zero); simpl.
  - intros [= <-]. lia.
  - destruct (ltb (quot _ _) zero) eqn:Hlt; simpl.
    + intros [= <-]. lia.
    + apply ceil_nonneg. exact Hlt.
Qed.

Lemma topups_nonneg m ps sp ss bs :
  topups m ps sp ss = Ok bs -> Forall (fun q => 0 <= q) bs.
Proof.
  revert sp ss bs. induction ps as [|p ps IH]; intros sp ss bs; simpl.
  - intros [= <-]. constructor.
  - intros H. apply bind_Ok in H as (b & Hb & H).
    apply bind_Ok in H as (bought & _ & H).
    apply bind_Ok in H as (rest & Hrest & [= <-]).
    constructor; [eapply buy_at_nonneg; exact Hb | eapply IH; exact Hrest].
Qed.

End Ceil.

End EngineFacts.

(** ** The allocation search: what a result guarantees *)

Section Search.

Context {num : Type} {N : Num num}.

(** C3: a result of the search costs no more than the budget, and its level-0
    quantity is the largest [Q0] of [0 .. max_Q0_search] whose induced
    schedule does: every strictly larger candidate in range is infeasible. *)
Theorem find_returns_largest_feasible
    (prices : list num) (budget m : num) (max_Q0_search : Z)
    (Q : list Z) (total_cost : num) :
  find_optimal_allocation prices budget m max_Q0_search = Ok (Some (Q, total_cost)) ->
  leb total_cost budget = true /\
  total_cost = total_cost_of prices Q /\
  exists Q0,
    nth_error Q 0 = Some Q0 /\ 0 <= Q0 <= max_Q0_search /\
    schedule prices m Q0 = Ok (Q, total_cost) /\
    feasible prices budget m Q0 /\
    forall q, Q0 < q <= max_Q0_search -> ~ feasible prices budget m q.
Proof.
  intros Hfind. apply find_Ok in Hfind as (best_Q0 & Hscan).
  apply scan_best_of in Hscan as [Hmax Hsol]. simpl in Hmax, Hsol.
  destruct Hsol as (Hpos & Hin & Hsched & Hle). simpl in Hle.
  apply in_range in Hin.
  destruct (schedule_Ok _ _ _ _ _ Hsched) as (p_0 & ps & bs & -> & -> & _ & Hc).
  repeat split; try assumption.
  exists best_Q0. repeat split; try assumption; try lia.
  - exists (best_Q0 :: bs, total_cost). split; assumption.
  - intros q Hq Hfeas.
    assert (q <= best_Q0); [|lia].
    apply Hmax; [apply in_range; lia | exact Hfeas].
Qed.

(** C10: a result is consistent with itself: one quantity per ladder level,
    every quantity a non-negative integer, the level-0 quantity equal to the
    selected [best_Q0], and the cost equal to the sum of [price * quantity]
    over the returned schedule: [sum(p*q for p,q in zip(prices, Q))] run
    again on the result returns the cost. *)
Theorem find_result_consistent
    (ceil_nonneg : forall (x : num) (z : Z),
        ltb x zero = false -> ceil x = Ok z -> 0 <= z)
    (prices : list num) (budget m : num) (max_Q0_search : Z)
    (Q : list Z) (total_cost : num) :
  find_optimal_allocation prices budget m max_Q0_search = Ok (Some (Q, total_cost)) ->
  length Q = length prices /\
  Forall (fun q => 0 <= q) Q /\
  (exists best_Q0,
      scan prices budget m max_Q0_search = Ok (best_Q0, Some (Q, total_cost)) /\
      nth_error Q 0 = Some best_Q0) /\
  total_cost = total_cost_of prices Q /\
  sum_products prices Q = Ok total_cost.
Proof.
  intros Hfind. apply find_Ok in Hfind as (best_Q0 & Hscan).
  pose proof (scan_best_of _ _ _ _ _ Hscan) as [_ Hsol]. simpl in Hsol.
  destruct Hsol as (Hpos & _ & Hsched & _).
  pose proof (schedule_sum _ _ _ _ _ Hsched) as Hsum.
  destruct (schedule_Ok _ _ _ _ _ Hsched) as (p_0 & ps & bs & -> & -> & Hbs & Hc).
  repeat split.
  - simpl. f_equal. eapply topups_length. exact Hbs.
  - constructor; [lia | eapply topups_nonneg; eassumption].
  - exists best_Q0. split; [exact Hscan | reflexivity].
  - exact Hc.
  - exact Hsum.
Qed.

(** C7: with the ladder, the tolerance and the search bound fixed, a larger
    budget never lowers the [best_Q0] the scan ends with, and never turns a
    result into no result. *)
Theorem best_Q0_monotone_in_budget
    (leb_trans : forall x y z : num,
        leb x y = true -> leb y z = true -> leb x z = true)
    (prices : list num) (m : num) (max_Q0_search : Z)
    (budget1 budget2 : num) (best1 : Z) (r1 : option (list Z * num)) :
  leb budget1 budget2 = true ->
  scan prices budget1 m max_Q0_search = Ok (best1, r1) ->
  exists best2 r2,
    scan prices budget2 m max_Q0_search = Ok (best2, r2) /\
    best1 <= best2 /\
    (r1 <> None -> r2 <> None).
Proof.
  intros Hb Hscan1.
  destruct (scan_total prices budget2 m max_Q0_search) as ([best2 r2] & Hscan2).
  { intros q Hq. eapply for_each_scan_schedules; [exact Hscan1|].
    apply in_range. lia. }
  exists best2, r2. split; [exact Hscan2|].
  apply scan_best_of in Hscan1 as [_ Hsol1].
  pose proof (scan_best_of _ _ _ _ _ Hscan2) as Hbest2.
  pose proof (best_of_nonneg _ _ _ _ _ Hbest2) as Hnn2.
  destruct Hbest2 as [Hmax2 Hsol2]. simpl in *.
  destruct r1 as [sol1|].
  - destruct Hsol1 as (Hpos & Hin & Hsched & Hle).
    assert (Hle2 : best1 <= best2).
    { apply Hmax2; [exact Hin|]. exists sol1. split; [exact Hsched|].
      eapply leb_trans; eassumption. }
    split; [exact Hle2|]. intros _ ->. lia.
  - subst best1. split; [exact Hnn2 | intros H; contradiction].
Qed.

(** C1, as the code has it: when no candidate raises, the search returns,
    and it returns no result exactly when no [Q0] of [1 .. max_Q0_search] is
    feasible; the candidate [Q0 = 0] is never recorded. *)
Theorem find_infeasible_iff
    (prices : list num) (budget m : num) (max_Q0_search : Z) :
  (forall q, 0 <= q <= max_Q0_search -> exists sol, schedule prices m q = Ok sol) ->
  exists r,
    find_optimal_allocation prices budget m max_Q0_search = Ok r /\
    (r = None <->
     forall q, 1 <= q <= max_Q0_search -> ~ feasible prices budget m q).
Proof.
  intros Hall.
  destruct (scan_total prices budget m max_Q0_search Hall) as ([best_Q0 r] & Hscan).
  exists r. split; [apply find_Ok; exists best_Q0; exact Hscan|].
  apply scan_best_of in Hscan as [Hmax Hsol]. simpl in *. split.
  - intros -> q Hq Hfeas. subst best_Q0.
    assert (q <= 0); [|lia]. apply Hmax; [apply in_range; lia | exact Hfeas].
  - intros Hnone. destruct r as [sol|]; [exfalso | reflexivity].
    destruct Hsol as (Hpos & Hin & Hsched & Hle). apply in_range in Hin.
    apply (Hnone best_Q0); [lia|]. exists sol. split; assumption.
Qed.

End Search.

(** ** Division is guarded *)

Section Guard.

Context {num : Type} {N : Num num}.

(** Whatever the tolerance, [lhs / denom] runs only when [denom != 0]. *)
Lemma buy_at_division_guarded (m p_i sp : num) (ss : Z) :
  (forall x, ceil x <> Raise ZeroDivisionError) ->
  buy_at m p_i sp ss <> Raise ZeroDivisionError.
Proof.
  intros Hceil. unfold buy_at, py_div.
  destruct (int_operand ss) as [shares|e] eqn:Hss; simpl.
  - destruct (eqb (mul m p_i) zero); simpl; [discriminate|].
    destruct (ltb (quot _ _) zero); simpl; [discriminate | apply Hceil].
  - apply int_operand_Raise in Hss as ->. discriminate.
Qed.

Lemma topups_division_guarded (m : num) (ps : list num) (sp : num) (ss : Z) :
  (forall x, ceil x <> Raise ZeroDivisionError) ->
  topups m ps sp ss <> Raise ZeroDivisionError.
Proof.
  intros Hceil. revert sp ss.
  induction ps as [|p ps IH]; intros sp ss; simpl; [discriminate|].
  intros H. apply bind_Raise in H as [H | (b & _ & H)].
  - exact (buy_at_division_guarded _ _ _ _ Hceil H).
  - apply bind_Raise in H as [H | (bought & _ & H)].
    + apply int_operand_Raise in H. discriminate.
    + apply bind_Raise in H as [H | (rest & _ & H)]; [|discriminate].
      exact (IH _ _ H).
Qed.

Lemma schedule_division_guarded (prices : list num) (m : num) (Q0 : Z) :
  (forall x, ceil x <> Raise ZeroDivisionError) ->
  schedule prices m Q0 <> Raise ZeroDivisionError.
Proof.
  intros Hceil. destruct prices as [|p_0 ps]; [rewrite schedule_nil; discriminate|].
  rewrite schedule_cons. intros H.
  apply bind_Raise in H as [H | (lot & _ & H)].
  - apply int_operand_Raise in H. discriminate.
  - apply bind_Raise in H as [H | (bs & _ & H)].
    + exact (topups_division_guarded _ _ _ _ Hceil H).
    + apply bind_Raise in H as [H | (c & _ & H)]; [|discriminate].
      apply for_each_sum_step_Raise in H. discriminate.
Qed.

Lemma find_division_guarded (prices : list num) (budget m : num) (max_Q0_search : Z) :
  (forall x, ceil x <> Raise ZeroDivisionError) ->
  find_optimal_allocation prices budget m max_Q0_search <> Raise ZeroDivisionError.
Proof.
  intros Hceil. unfold find_optimal_allocation, scan. intros H.
  apply bind_Raise in H as [H | (b & _ & H)]; [|discriminate].
  revert H. generalize (0, @None (list Z * num)).
  induction (range (max_Q0_search + 1)) as [|Q0 l IH]; intros b; simpl; [discriminate|].
  intros H. apply bind_Raise in H as [H | (b1 & _ & H)]; [|exact (IH _ H)].
  unfold scan_step in H. apply bind_Raise in H as [H | (sol & _ & H)].
  - exact (schedule_division_guarded _ _ _ Hceil H).
  - destruct (leb (snd sol) budget); [destruct (Q0 >? fst b)|]; discriminate.
Qed.

(** When the denominator is 0 the quotient is not computed and nothing is
    bought: past the conversion of [S_shares] in [lhs], which comes first,
    the purchase is 0. *)
Lemma buy_at_zero_denom (m p_i sp : num) (ss : Z) :
  eqb (mul m p_i) zero = true ->
  buy_at m p_i sp ss = (shares <- int_operand ss ;; Ok 0).
Proof.
  intros H. unfold buy_at.
  destruct (int_operand ss) as [shares|e]; simpl; [|reflexivity].
  rewrite H. reflexivity.
Qed.

Lemma topups_zero_denom_Ok (m : num) (ps : list num) :
  (forall p, In p ps -> eqb (mul m p) zero = true) ->
  forall sp ss bs, topups m ps sp ss = Ok bs -> bs = repeat 0 (length ps).
Proof.
  induction ps as [|p ps IH]; intros H sp ss bs; simpl.
  - intros [= <-]. reflexivity.
  - rewrite buy_at_zero_denom by (apply H; left; reflexivity).
    intros Hrun. apply bind_Ok in Hrun as (b & Hb & Hrun).
    apply bind_Ok in Hb as (shares & _ & [= <-]).
    apply bind_Ok in Hrun as (bought & _ & Hrun).
    apply bind_Ok in Hrun as (rest & Hrest & [= <-]).
    f_equal. eapply IH; [|exact Hrest].
    intros p' Hp'. apply H. right. exact Hp'.
Qed.

Lemma topups_zero_denom_Raise (m : num) (ps : list num) :
  (forall p, In p ps -> eqb (mul m p) zero = true) ->
  forall sp ss e, topups m ps sp ss = Raise e -> e = OverflowError.
Proof.
  induction ps as [|p ps IH]; intros H sp ss e; simpl; [discriminate|].
  rewrite buy_at_zero_denom by (apply H; left; reflexivity).
  intros Hrun. apply bind_Raise in Hrun as [Hb | (b & _ & Hrun)].
  - apply bind_Raise in Hb as [Hb | (shares & _ & Hb)];
      [exact (int_operand_Raise _ _ Hb) | discriminate].
  - apply bind_Raise in Hrun as [Hb | (bought & _ & Hrun)];
      [exact (int_operand_Raise _ _ Hb)|].
    apply bind_Raise in Hrun as [Hrest | (rest & _ & Hrun)]; [|discriminate].
    eapply IH; [|exact Hrest].
    intros p' Hp'. apply H. right. exact Hp'.
Qed.

Lemma topups_zero_denom (m : num) (ps : list num) :
  (forall p, In p ps -> eqb (mul m p) zero = true) ->
  int_fits 0 = true ->
  forall sp ss, int_fits ss = true ->
    topups m ps sp ss = Ok (repeat 0 (length ps)).
Proof.
  intros H H0. induction ps as [|p ps IH]; intros sp ss Hss; simpl;
    [reflexivity|].
  rewrite buy_at_zero_denom by (apply H; left; reflexivity).
  rewrite (int_operand_fits ss Hss). cbn [bind].
  rewrite (int_operand_fits 0 H0). cbn [bind].
  rewrite IH; [reflexivity | | rewrite Z.add_0_r; exact Hss].
  intros p' Hp'. apply H. right. exact Hp'.
Qed.

Lemma schedule_zero_denom_Raise (prices : list num) (m : num) (Q0 : Z) (e : exn) :
  (forall p, In p prices -> eqb (mul m p) zero = true) ->
  schedule prices m Q0 = Raise e -> e = IndexError \/ e = OverflowError.
Proof.
  intros Hden. destruct prices as [|p_0 ps].
  - rewrite schedule_nil. intros [= <-]. left. reflexivity.
  - rewrite schedule_cons. intros H. right.
    apply bind_Raise in H as [H | (lot & _ & H)];
      [exact (int_operand_Raise _ _ H)|].
    apply bind_Raise in H as [H | (bs & _ & H)].
    + eapply topups_zero_denom_Raise; [|exact H].
      intros p Hp. apply Hden. right. exact Hp.
    + apply bind_Raise in H as [H | (c & _ & H)]; [|discriminate].
      exact (for_each_sum_step_Raise _ _ _ H).
Qed.

(** C5: at zero tolerance every denominator [avg_cost_margin * p_i] is 0
    (the hypothesis); then the division is never run: every schedule that is
    returned has the quantity 0 at every level after level 0, every
    candidate that fits the number type has such a schedule, and the search
    raises no [ZeroDivisionError]; on a non-empty ladder with candidates
    that fit the number type it raises nothing at all. *)
Theorem zero_tolerance_is_guarded
    (prices : list num) (budget m : num) (max_Q0_search : Z) :
  (forall p, In p prices -> eqb (mul m p) zero = true) ->
  (forall Q0 Q total_cost,
     schedule prices m Q0 = Ok (Q, total_cost) ->
     Q = Q0 :: repeat 0 (length prices - 1)) /\
  (forall Q0, prices <> [] -> int_fits 0 = true -> int_fits Q0 = true ->
     schedule prices m Q0
     = Ok (Q0 :: repeat 0 (length prices - 1),
           total_cost_of prices (Q0 :: repeat 0 (length prices - 1)))) /\
  find_optimal_allocation prices budget m max_Q0_search <> Raise ZeroDivisionError /\
  (prices <> [] ->
   (forall Q0, 0 <= Q0 <= max_Q0_search -> int_fits Q0 = true) ->
   exists r, find_optimal_allocation prices budget m max_Q0_search = Ok r).
Proof.
  intros Hden.
  assert (Hsched : forall Q0, prices <> [] -> int_fits 0 = true ->
     int_fits Q0 = true ->
     schedule prices m Q0
     = Ok (Q0 :: repeat 0 (length prices - 1),
           total_cost_of prices (Q0 :: repeat 0 (length prices - 1)))).
  { intros Q0 Hne H0 HQ0. destruct prices as [|p_0 ps]; [congruence|].
    rewrite schedule_cons, (int_operand_fits Q0 HQ0). cbn [bind].
    rewrite topups_zero_denom;
      [|intros p Hp; apply Hden; right; exact Hp | exact H0 | exact HQ0].
    cbn [bind]. rewrite sum_products_fits.
    - simpl. rewrite Nat.sub_0_r. reflexivity.
    - constructor; [exact HQ0|]. apply Forall_forall.
      intros q Hq. apply repeat_spec in Hq. subst q. exact H0. }
  split; [|split; [exact Hsched | split]].
  - intros Q0 Q total_cost Hrun.
    destruct (schedule_Ok _ _ _ _ _ Hrun) as (p_0 & ps & bs & -> & -> & Hbs & _).
    f_equal. simpl. rewrite Nat.sub_0_r.
    eapply topups_zero_denom_Ok; [|exact Hbs].
    intros p Hp. apply Hden. right. exact Hp.
  - unfold find_optimal_allocation, scan. intros H.
    apply bind_Raise in H as [H | (b & _ & H)]; [|discriminate].
    revert H. generalize (0, @None (list Z * num)).
    induction (range (max_Q0_search + 1)) as [|Q0 l IH]; intros b; simpl;
      [discriminate|].
    intros H. apply bind_Raise in H as [H | (b1 & _ & H)]; [|exact (IH _ H)].
    unfold scan_step in H. apply bind_Raise in H as [H | (sol & _ & H)].
    + apply (schedule_zero_denom_Raise _ _ _ _ Hden) in H as [H | H];
        discriminate.
    + destruct (leb (snd sol) budget); [destruct (Q0 >? fst b)|]; discriminate.
  - intros Hne Hfit.
    destruct (Z_lt_le_dec max_Q0_search 0) as [Hneg | Hpos].
    + exists None. unfold find_optimal_allocation, scan, range.
      replace (Z.to_nat (max_Q0_search + 1)) with 0%nat by lia. reflexivity.
    + destruct (scan_total prices budget m max_Q0_search) as ([q r] & Hscan).
      * intros Q0 HQ0. eexists. apply Hsched; [exact Hne | | apply Hfit; exact HQ0].
        apply Hfit. lia.
      * exists r. apply find_Ok. exists q. exact Hscan.
Qed.

End Guard.

(** ** The ladder builder: degraded outcomes *)

Section Degraded.

Context {num : Type} {N : Num num}.

(** C6: when the test [start_price <= end_price] succeeds the builder
    returns the one-element ladder of the rounded start price; when it fails
    and the test [interval_value <= 0] succeeds it returns the two-element
    ladder of the rounded start and floor prices.  Either way exactly one
    warning is shown, the loop is not entered (any fuel will do), and the
    builder has no way to raise. *)
Theorem build_price_levels_degrades
    (fuel : nat) (start_price end_price : num) (interval_type : string)
    (interval_value : num) :
  (leb start_price end_price = true ->
   build_price_levels fuel start_price end_price interval_type interval_value
   = Some ([warning_start_above_floor], [round2 start_price])) /\
  (leb start_price end_price = false ->
   leb interval_value zero = true ->
   build_price_levels fuel start_price end_price interval_type interval_value
   = Some ([warning_interval_positive],
           [round2 start_price; round2 end_price])).
Proof.
  unfold build_price_levels. split.
  - intros ->. reflexivity.
  - intros -> ->. reflexivity.
Qed.

End Degraded.

(** ** Lists *)

Lemma map_snd_combine {A B : Type} (l : list A) (l' : list B) :
  length l = length l' -> map snd (combine l l') = l'.
Proof.
  revert l'. induction l as [|a l IH]; intros [|b l'] H; simpl in *;
    try discriminate; [reflexivity|].
  f_equal. apply IH. lia.
Qed.

Lemma nth_error_combine {A B : Type} (l : list A) (l' : list B) i a b :
  nth_error l i = Some a -> nth_error l' i = Some b ->
  nth_error (combine l l') i = Some (a, b).
Proof.
  revert l l'. induction i as [|i IH]; intros [|x l] [|y l'] Ha Hb;
    simpl in *; try discriminate.
  - injection Ha as <-. injection Hb as <-. reflexivity.
  - apply IH; assumption.
Qed.

Lemma cum_shares_nonneg (shares : list Z) (i : nat) :
  Forall (fun q => 0 <= q) shares -> 0 <= cum_shares shares i.
Proof.
  intros Hall. unfold cum_shares.
  assert (H : forall l a, Forall (fun q => 0 <= q) l -> 0 <= a ->
                          0 <= fold_left Z.add l a).
  { induction l as [|x l IH]; intros a Hl Ha; simpl; [exact Ha|].
    inversion Hl; subst. apply IH; [assumption | lia]. }
  apply H; [|lia].
  apply Forall_forall. intros x Hx.
  rewrite Forall_forall in Hall. apply Hall.
  rewrite <- (firstn_skipn (S i) shares). apply in_or_app. left. exact Hx.
Qed.

(** ** Exact arithmetic *)

Module ExactFacts.

Local Open Scope Q_scope.

Lemma ltb_false_iff (x y : Q) : ltb x y = false <-> y <= x.
Proof.
  simpl. rewrite negb_false_iff. apply Qle_bool_iff.
Qed.

Lemma leb_false_iff (x y : Q) : leb x y = false <-> y < x.
Proof.
  simpl. split.
  - intros H. apply Qnot_le_lt. intros Hle.
    apply Qle_bool_iff in Hle. congruence.
  - intros H. destruct (Qle_bool x y) eqn:E; [|reflexivity].
    apply Qle_bool_iff in E. exfalso. exact (Qlt_not_le _ _ H E).
Qed.

Lemma eqb_false_iff (x y : Q) : eqb x y = false <-> ~ x == y.
Proof.
  simpl. split.
  - apply Qeq_bool_neq.
  - intros H. destruct (Qeq_bool x y) eqn:E; [|reflexivity].
    apply Qeq_bool_iff in E. contradiction.
Qed.

Lemma exact_ceil_nonneg (x : Q) (z : Z) :
  ltb x zero = false -> ceil x = Ok z -> (0 <= z)%Z.
Proof.
  intros Hlt [= <-]. apply ltb_false_iff in Hlt.
  change (Qceiling 0 <= Qceiling x)%Z. apply Qceiling_resp_le. exact Hlt.
Qed.

Lemma ceil_never_divides (x : Q) : ceil x <> Raise ZeroDivisionError.
Proof. discriminate. Qed.

Lemma exact_leb_trans (x y z : Q) :
  leb x y = true -> leb y z = true -> leb x z = true.
Proof.
  simpl. rewrite !Qle_bool_iff. apply Qle_trans.
Qed.

Lemma exact_of_int_nonzero (z : Z) :
  (0 < z)%Z -> eqb (of_int z : Q) zero = false.
Proof.
  intros Hz. apply eqb_false_iff. simpl. unfold Qeq. simpl. lia.
Qed.

Lemma exact_round2_zero : round2 (zero (num := Q)) = zero.
Proof. reflexivity. Qed.

Lemma zero_tolerance_denominators (m p : Q) :
  m == 0 -> eqb (mul m p) zero = true.
Proof.
  intros Hm. simpl. apply Qeq_bool_iff. rewrite Hm. ring.
Qed.

(** Every int fits a rational: on exact numbers the conversions and the sum
    have no way to raise. *)
Lemma exact_int_operand (z : Z) : int_operand z = Ok (inject_Z z).
Proof. reflexivity. Qed.

Lemma exact_sum_products (prices : list Q) (shares : list Z) :
  sum_products prices shares = Ok (total_cost_of prices shares).
Proof.
  apply sum_products_fits. apply Forall_forall. intros q _. reflexivity.
Qed.

Lemma exact_schedule_cons (m p_0 : Q) (ps : list Q) (Q0 : Z) :
  schedule (p_0 :: ps) m Q0
  = (bs <- topups m ps (mul p_0 (of_int Q0)) Q0 ;;
     Ok (Q0 :: bs, total_cost_of (p_0 :: ps) (Q0 :: bs))).
Proof.
  rewrite schedule_cons, exact_int_operand. cbn [bind].
  destruct (topups m ps _ Q0) as [bs|e]; cbn [bind]; [|reflexivity].
  rewrite exact_sum_products. reflexivity.
Qed.

(** No exact schedule raises, on a non-empty ladder. *)
Lemma buy_at_total (m p_i sp : Q) (ss : Z) : exists b, buy_at m p_i sp ss = Ok b.
Proof.
  unfold buy_at, py_div. destruct (eqb (mul m p_i) zero); simpl.
  - exists 0%Z. reflexivity.
  - destruct (negb _); simpl; eexists; reflexivity.
Qed.

Lemma topups_total (m : Q) (ps : list Q) (sp : Q) (ss : Z) :
  exists bs, topups m ps sp ss = Ok bs.
Proof.
  revert sp ss. induction ps as [|p ps IH]; intros sp ss; simpl.
  - exists []. reflexivity.
  - destruct (buy_at_total m p sp ss) as (b & ->). simpl.
    destruct (IH (sp + p * inject_Z b) (ss + b)%Z) as (bs & ->). simpl.
    eexists. reflexivity.
Qed.

Lemma schedule_total (prices : list Q) (m : Q) (Q0 : Z) :
  prices <> [] -> exists sol, schedule prices m Q0 = Ok sol.
Proof.
  intros Hne. destruct prices as [|p_0 ps]; [congruence|].
  rewrite exact_schedule_cons.
  destruct (topups_total m ps (mul p_0 (of_int Q0)) Q0) as (bs & ->). simpl.
  eexists. reflexivity.
Qed.

(** *** The average-cost constraint *)


Lemma div_le_mul (x d c : Q) : 0 < d -> x / d <= c -> x <= c * d.
Proof.
  intros Hd H. apply (Qmult_le_r _ _ d Hd) in H.
  assert (E : x / d * d == x) by (field; intros E; rewrite E in Hd; exact (Qlt_irrefl _ Hd)).
  rewrite E in H. exact H.
Qed.





(** *** Rounding to two decimals is monotone *)

(** [round_half_even x] is within one half of [x], and is even on a tie. *)
Lemma round_half_even_spec (x : Q) :
  let r := round_half_even x in
  (inject_Z r - (1 # 2) < x \/ (x == inject_Z r - (1 # 2) /\ Z.even r = true)) /\
  (x < inject_Z r + (1 # 2) \/ (x == inject_Z r + (1 # 2) /\ Z.even r = true)).
Proof.
  destruct x as [n d]. unfold round_half_even. cbn [Qnum Qden].
  pose proof (Z_div_mod n (Z.pos d) eq_refl) as Hdiv.
  destruct (Z.div_eucl n (Z.pos d)) as [f rem]. destruct Hdiv as [Hn Hrem].
  cbv zeta.
  destruct (Z.ltb_spec (rem * 2) (Z.pos d)) as [H1|H1].
  - split; left; unfold Qlt, Qminus, Qplus, Qopp, inject_Z; simpl; nia.
  - destruct (Z.ltb_spec (Z.pos d) (rem * 2)) as [H2|H2].
    + split; left; unfold Qlt, Qminus, Qplus, Qopp, inject_Z; simpl; nia.
    + assert (Htie : (rem * 2 = Z.pos d)%Z) by lia.
      destruct (Z.even f) eqn:Hev.
      * split; [left | right; split; [|exact Hev]];
          unfold Qlt, Qeq, Qminus, Qplus, Qopp, inject_Z; simpl; nia.
      * assert (Hev' : Z.even (f + 1) = true).
        { rewrite Z.even_add, Hev. reflexivity. }
        split; [right; split; [|exact Hev'] | left];
          unfold Qlt, Qeq, Qminus, Qplus, Qopp, inject_Z; simpl; nia.
Qed.

Lemma round_half_even_mono (x y : Q) :
  x <= y -> (round_half_even x <= round_half_even y)%Z.
Proof.
  intros Hxy.
  destruct (round_half_even_spec x) as [Hlo _].
  destruct (round_half_even_spec y) as [_ Hhi].
  cbv zeta in Hlo, Hhi.
  set (rx := round_half_even x) in *. set (ry := round_half_even y) in *.
  destruct (Z_le_gt_dec rx ry) as [Hle|Hgt]; [exact Hle | exfalso].
  assert (Hinj : inject_Z ry + 1 <= inject_Z rx).
  { change 1 with (inject_Z 1). rewrite <- inject_Z_plus, <- Zle_Qle. lia. }
  destruct Hlo as [Hlo | [Hlo Hevx]]; destruct Hhi as [Hhi | [Hhi Hevy]];
    try lra.
  assert (Heq : inject_Z rx == inject_Z (ry + 1)).
  { rewrite inject_Z_plus. change (inject_Z 1) with 1. lra. }
  assert (Hz : rx = (ry + 1)%Z) by (unfold Qeq in Heq; simpl in Heq; lia).
  rewrite Hz, Z.even_add, Hevy in Hevx. discriminate.
Qed.

Lemma round2_mono (x y : Q) : x <= y -> round2 x <= round2 y.
Proof.
  intros Hxy. simpl. unfold Q_round2. rewrite !Qred_correct.
  assert (H : (round_half_even (x * 100) <= round_half_even (y * 100))%Z).
  { apply round_half_even_mono. lra. }
  unfold Qle. simpl. nia.
Qed.

(** *** The ladder loop *)

Import Ladder.

Lemma next_price_below (ty : string) (iv floor cur : Q) :
  0 < iv -> floor < cur -> (ty = "$"%string \/ 0 <= floor) ->
  next_price_of ty iv cur < cur.
Proof.
  intros Hiv Hcur Hdom. unfold next_price_of.
  destruct (String.eqb_spec ty "$") as [_|Hne]; simpl.
  - lra.
  - destruct Hdom as [E|Hfloor]; [contradiction|].
    assert (0 < cur * iv) by (apply Qmult_lt_0_compat; lra).
    change (inject_Z 1) with 1. lra.
Qed.

Lemma price_loop_descent (ty : string) (iv floor : Q) (fuel : nat) :
  0 < iv -> (ty = "$"%string \/ 0 <= floor) ->
  forall cur prices out,
    floor < cur ->
    price_loop fuel ty iv floor cur prices = Some out ->
    exists tail, out = prices ++ tail /\ descent floor cur tail.
Proof.
  intros Hiv Hdom. induction fuel as [|fuel IH]; intros cur prices out Hcur Hrun.
  - discriminate.
  - cbn [price_loop] in Hrun.
    destruct (leb (next_price_of ty iv cur) floor) eqn:Hle.
    + injection Hrun as <-. exists []. split; [symmetry; apply app_nil_r | exact I].
    + apply leb_false_iff in Hle.
      destruct (IH _ _ _ Hle Hrun) as (tail & -> & Htail).
      exists (next_price_of ty iv cur :: tail). split.
      * rewrite <- app_assoc. reflexivity.
      * repeat split; [|exact Hle | exact Htail].
        apply (next_price_below ty iv floor cur); assumption.
Qed.

Lemma descent_decreasing (floor : Q) (tail : list Q) :
  forall cur, floor < cur -> descent floor cur tail ->
    strictly_decreasing (cur :: tail ++ [floor]) /\
    Forall (fun x => floor < x) tail.
Proof.
  induction tail as [|x tail IH]; intros cur Hcur Hd.
  - simpl. repeat split; [exact Hcur | constructor].
  - destruct Hd as (Hx & Hfx & Hd). destruct (IH x Hfx Hd) as [Hs Hall].
    split; [|constructor; assumption].
    change (x < cur /\ strictly_decreasing (x :: tail ++ [floor])).
    split; assumption.
Qed.

Lemma round2_non_increasing (l : list Q) :
  strictly_decreasing l -> non_increasing (map round2 l).
Proof.
  induction l as [|x [|y l] IH]; intros Hs; try exact I.
  destruct Hs as [Hyx Hs].
  change (round2 y <= round2 x /\ non_increasing (map round2 (y :: l))).
  split; [apply round2_mono; lra | apply IH; exact Hs].
Qed.

(** The shape of a ladder that is returned. *)
Lemma returned_ladder_shape
    (fuel : nat) (start_price floor_price : Q) (interval_type : string)
    (interval_value : Q) (warnings : list string) (ladder : list Q) :
  floor_price < start_price ->
  0 < interval_value ->
  (interval_type = "$"%string \/ 0 <= floor_price) ->
  build_price_levels fuel start_price floor_price interval_type interval_value
  = Some (warnings, ladder) ->
  warnings = [] /\
  exists mids,
    ladder = map round2 (start_price :: mids ++ [floor_price]) /\
    strictly_decreasing (start_price :: mids ++ [floor_price]) /\
    Forall (fun x => floor_price < x) mids /\
    non_increasing ladder /\
    hd_error ladder = Some (round2 start_price) /\
    last ladder 0 = round2 floor_price /\
    Forall (fun x => round2 floor_price <= x) ladder.
Proof.
  intros Hsf Hiv Hdom Hbuild. unfold build_price_levels in Hbuild.
  rewrite (proj2 (leb_false_iff start_price floor_price) Hsf) in Hbuild.
  assert (Hiv' : leb interval_value zero = false)
    by (apply leb_false_iff; exact Hiv).
  rewrite Hiv' in Hbuild.
  destruct (price_loop fuel interval_type interval_value floor_price
              start_price [start_price]) as [prices|] eqn:Hloop; [|discriminate].
  injection Hbuild as <- <-. split; [reflexivity|].
  destruct (price_loop_descent _ _ _ _ Hiv Hdom _ _ _ Hsf Hloop)
    as (mids & -> & Hd).
  destruct (descent_decreasing _ _ _ Hsf Hd) as [Hs Hall].
  exists mids. simpl app.
  repeat split; try assumption.
  - apply round2_non_increasing. exact Hs.
  - rewrite app_comm_cons, map_app. simpl (map round2 [floor_price]).
    apply last_last.
  - apply Forall_forall. intros x Hx. apply in_map_iff in Hx as (y & <- & Hy).
    apply round2_mono. destruct Hy as [<- | Hy]; [lra|].
    apply in_app_or in Hy as [Hy | [<- | []]]; [|lra].
    rewrite Forall_forall in Hall. specialize (Hall y Hy). lra.
Qed.

(** *** Termination in exact arithmetic *)

Lemma price_loop_more_fuel (ty : string) (iv floor : Q) (fuel k : nat) :
  forall cur prices out,
    price_loop fuel ty iv floor cur prices = Some out ->
    price_loop (fuel + k) ty iv floor cur prices = Some out.
Proof.
  induction fuel as [|fuel IH]; intros cur prices out Hrun; [discriminate|].
  cbn [price_loop Nat.add] in *.
  destruct (leb (next_price_of ty iv cur) floor); [exact Hrun | apply IH; exact Hrun].
Qed.

(** A loop whose every step lowers the price by at least [d > 0] reaches the
    floor within [(current - floor) / d] iterations. *)
Lemma price_loop_terminates (ty : string) (iv floor d : Q) :
  0 < d ->
  (forall c, floor < c -> next_price_of ty iv c <= c - d) ->
  forall (n : nat) cur prices,
    floor < cur ->
    cur - floor <= inject_Z (Z.of_nat n) * d ->
    exists out, price_loop n ty iv floor cur prices = Some out.
Proof.
  intros Hd Hstep. induction n as [|n IH]; intros cur prices Hcur Hn.
  - change (inject_Z (Z.of_nat 0)) with 0 in Hn. lra.
  - cbn [price_loop].
    destruct (leb (next_price_of ty iv cur) floor) eqn:Hle.
    + eexists. reflexivity.
    + apply leb_false_iff in Hle. apply IH; [exact Hle|].
      specialize (Hstep cur Hcur).
      rewrite Nat2Z.inj_succ, <- Z.add_1_r, inject_Z_plus in Hn.
      change (inject_Z 1) with 1 in Hn. lra.
Qed.

Lemma step_lowers_price (ty : string) (iv floor : Q) :
  0 < iv -> (ty = "$"%string \/ 0 < floor) ->
  exists d, 0 < d /\ forall c, floor < c -> next_price_of ty iv c <= c - d.
Proof.
  intros Hiv Hdom. unfold next_price_of.
  destruct (String.eqb_spec ty "$") as [_|Hne].
  - exists iv. split; [exact Hiv|]. intros c _. simpl. lra.
  - destruct Hdom as [E|Hfloor]; [contradiction|].
    exists (iv * floor). split; [apply Qmult_lt_0_compat; assumption|].
    intros c Hc. simpl. change (inject_Z 1) with 1.
    assert (0 <= iv * (c - floor)) by (apply Qmult_le_0_compat; lra).
    lra.
Qed.

(** In exact arithmetic the builder returns on every input of the documented
    domain: for some fuel, and for every larger one, it yields the same
    ladder. *)
Theorem build_price_levels_terminates_exact
    (start_price floor_price : Q) (interval_type : string) (interval_value : Q) :
  floor_price < start_price ->
  0 < interval_value ->
  (interval_type = "$"%string \/ 0 < floor_price) ->
  exists fuel ladder,
    forall fuel', (fuel <= fuel')%nat ->
      build_price_levels fuel' start_price floor_price interval_type interval_value
      = Some ([], ladder).
Proof.
  intros Hsf Hiv Hdom.
  destruct (step_lowers_price interval_type interval_value floor_price Hiv Hdom)
    as (d & Hd & Hstep).
  set (n := Z.to_nat (Qceiling ((start_price - floor_price) / d))).
  destruct (price_loop_terminates _ _ _ _ Hd Hstep n start_price [start_price] Hsf)
    as (out & Hout).
  { assert (Hq : 0 <= (start_price - floor_price) / d).
    { apply Qle_shift_div_l; [exact Hd | lra]. }
    pose proof (Qle_ceiling ((start_price - floor_price) / d)) as Hc.
    unfold n. rewrite Z2Nat.id.
    - apply div_le_mul in Hc; [exact Hc | exact Hd].
    - change 0%Z with (Qceiling 0). apply Qceiling_resp_le. exact Hq. }
  exists n, (map round2 (out ++ [floor_price])). intros fuel' Hfuel.
  unfold build_price_levels.
  rewrite (proj2 (leb_false_iff start_price floor_price) Hsf).
  assert (Hiv' : leb interval_value zero = false)
    by (apply leb_false_iff; exact Hiv).
  rewrite Hiv'.
  replace fuel' with (n + (fuel' - n))%nat by lia.
  rewrite (price_loop_more_fuel _ _ _ _ _ _ _ _ Hout). reflexivity.
Qed.

(** C4, as the code has it: for [start_price > floor_price] and a positive
    step (with a positive floor under the relative rule), in exact
    arithmetic the builder returns a ladder, without a warning, that is the
    rounding, element by element, of a strictly decreasing sequence which
    starts at the start price, ends at the floor price and stays above the
    floor in between.
    So the ladder is non-increasing, begins with [round(start_price, 2)],
    ends with [round(floor_price, 2)], and has no element below
    [round(floor_price, 2)]. *)
Theorem build_price_levels_ladder
    (start_price floor_price : Q) (interval_type : string) (interval_value : Q) :
  floor_price < start_price ->
  0 < interval_value ->
  (interval_type = "$"%string \/ 0 < floor_price) ->
  exists fuel ladder mids,
    (forall fuel', (fuel <= fuel')%nat ->
       build_price_levels fuel' start_price floor_price interval_type
         interval_value = Some ([], ladder)) /\
    ladder = map round2 (start_price :: mids ++ [floor_price]) /\
    strictly_decreasing (start_price :: mids ++ [floor_price]) /\
    Forall (fun x => floor_price < x) mids /\
    non_increasing ladder /\
    hd_error ladder = Some (round2 start_price) /\
    last ladder 0 = round2 floor_price /\
    Forall (fun x => round2 floor_price <= x) ladder.
Proof.
  intros Hsf Hiv Hdom.
  destruct (build_price_levels_terminates_exact _ _ _ _ Hsf Hiv Hdom)
    as (fuel & ladder & Hret).
  assert (Hdom' : interval_type = "$"%string \/ 0 <= floor_price)
    by (destruct Hdom as [E|Hpos]; [left; exact E | right; lra]).
  destruct (returned_ladder_shape fuel _ _ _ _ _ _ Hsf Hiv Hdom'
              (Hret fuel (Nat.le_refl fuel)))
    as (_ & mids & Hshape).
  exists fuel, ladder, mids. split; [exact Hret | exact Hshape].
Qed.

End ExactFacts.

(** ** Binary64 arithmetic *)

Module FloatFacts.

Import B64.

(** [math.ceil] on floats: what the search relies on. *)
Lemma to_Q_nonneg (m : positive) (e : Z) :
  (0 <= to_Q (S754_finite false m e))%Q.
Proof.
  unfold to_Q, cond_Zopp. destruct (Z.leb_spec 0 e) as [He|He].
  - unfold Qle, inject_Z. cbn [Qnum Qden].
    pose proof (Z.pow_nonneg 2 e ltac:(lia)). nia.
  - unfold Qle. cbn [Qnum Qden]. lia.
Qed.

Lemma float_ceil_nonneg (x : t) (z : Z) :
  ltb x zero = false -> ceil x = Ok z -> 0 <= z.
Proof.
  destruct x as [s|s| |s m e]; simpl; try discriminate.
  - intros _ [= <-]. lia.
  - destruct s; [discriminate|]. intros _ [= <-].
    apply (Qceiling_resp_le 0). apply to_Q_nonneg.
Qed.

Lemma float_ceil_never_divides (x : t) : ceil x <> Raise ZeroDivisionError.
Proof. destruct x; discriminate. Qed.

(** [<=] on floats is transitive (a NaN operand makes a test fail). *)
Lemma float_leb_trans (x y z : t) :
  leb x y = true -> leb y z = true -> leb x z = true.
Proof.
  unfold leb; simpl. unfold SFleb, SFcompare.
  destruct x as [sx|sx| |sx mx ex], y as [sy|sy| |sy my ey],
           z as [sz|sz| |sz mz ez];
    try discriminate; try reflexivity;
    try (destruct sx; try discriminate; try reflexivity);
    try (destruct sy; try discriminate; try reflexivity);
    try (destruct sz; try discriminate; try reflexivity).
  all: change (Pos.compare_cont Eq) with Pos.compare.
  all: destruct (Z.compare_spec ex ey); destruct (Z.compare_spec ey ez);
       destruct (Z.compare_spec ex ez);
       try discriminate; try reflexivity; try lia; simpl;
       destruct (Pos.compare_spec mx my); destruct (Pos.compare_spec my mz);
       destruct (Pos.compare_spec mx mz); simpl;
       try discriminate; try reflexivity; try lia.
Qed.

(** At zero tolerance the denominator is a zero for every finite price. *)
Lemma float_zero_tolerance_denominators (p : t) :
  (exists s, p = S754_zero s) \/ (exists s m e, p = S754_finite s m e) ->
  eqb (mul (of_int 0) p) zero = true.
Proof.
  intros [(s & ->) | (s & m & e & ->)]; destruct s; reflexivity.
Qed.

(** 75.0, 60.0 and 1e-18, the floats of the literals. *)
Lemma literal_75 : of_Q 75 = S754_finite false 5277655813324800 (-46).
Proof. vm_compute. reflexivity. Qed.

Lemma literal_60 : of_Q 60 = S754_finite false 8444249301319680 (-47).
Proof. vm_compute. reflexivity. Qed.

(** A step far below half a unit in the last place of the price is absorbed
    by the subtraction: [75.0 - 1e-18 == 75.0]. *)
Lemma step_absorbed :
  next_price_of "$" (of_Q (1 # 1000000000000000000)) (of_Q 75) = of_Q 75.
Proof. vm_compute. reflexivity. Qed.

Lemma price_loop_stuck (fuel : nat) :
  forall prices,
    price_loop fuel "$" (of_Q (1 # 1000000000000000000)) (of_Q 60) (of_Q 75) prices
    = None.
Proof.
  induction fuel as [|fuel IH]; intros prices; [reflexivity|].
  cbn [price_loop]. rewrite step_absorbed.
  replace (leb (of_Q 75) (of_Q 60)) with false by (vm_compute; reflexivity).
  apply IH.
Qed.

(** C8: on floats the builder does not return for every input of the
    documented domain.  At [start_price = 75.0], [end_price = 60.0] and the
    positive absolute step [1e-18] both precondition tests pass, the
    subtraction leaves the price at 75.0, the test [next_price <= end_price]
    never succeeds, and no amount of fuel reaches the [break]. *)
Theorem build_price_levels_absorbed_step_never_returns :
  ltb (of_Q 60) (of_Q 75) = true /\
  ltb zero (of_Q 60) = true /\
  ltb zero (of_Q (1 # 1000000000000000000)) = true /\
  forall fuel : nat,
    build_price_levels fuel (of_Q 75) (of_Q 60) "$"
      (of_Q (1 # 1000000000000000000)) = None.
Proof.
  repeat split; try (vm_compute; reflexivity).
  intros fuel. unfold build_price_levels.
  replace (leb (of_Q 75) (of_Q 60)) with false by (vm_compute; reflexivity).
  replace (leb (of_Q (1 # 1000000000000000000)) zero) with false
    by (vm_compute; reflexivity).
  rewrite price_loop_stuck. reflexivity.
Qed.

(** The same with the default step of 2.50 and a large start price:
    [1e17 - 2.5 == 1e17]. *)
Lemma large_price_never_returns (fuel : nat) :
  build_price_levels fuel (of_Q 100000000000000000) (of_Q 60) "$" (of_Q (5 # 2))
  = None.
Proof.
  unfold build_price_levels.
  replace (leb (of_Q 100000000000000000) (of_Q 60)) with false
    by (vm_compute; reflexivity).
  replace (leb (of_Q (5 # 2)) zero) with false by (vm_compute; reflexivity).
  assert (Hloop : forall prices,
    price_loop fuel "$" (of_Q (5 # 2)) (of_Q 60) (of_Q 100000000000000000) prices
    = None).
  { induction fuel as [|fuel IH]; intros prices; [reflexivity|].
    cbn [price_loop].
    replace (next_price_of "$" (of_Q (5 # 2)) (of_Q 100000000000000000))
      with (of_Q 100000000000000000) by (vm_compute; reflexivity).
    replace (leb (of_Q 100000000000000000) (of_Q 60)) with false
      by (vm_compute; reflexivity).
    apply IH. }
  rewrite Hloop. reflexivity.
Qed.

(** *** The conversion of a positive int *)

Lemma shr_1_digits (mrs : shr_record) :
  0 <= shr_m mrs ->
  0 <= shr_m (shr_1 mrs) /\
  Zdigits2 (shr_m (shr_1 mrs)) = Z.max 0 (Zdigits2 (shr_m mrs) - 1).
Proof.
  destruct mrs as [m r s].
  destruct m as [|[p|p|]|p]; cbn [shr_1 shr_m Zdigits2 digits2_pos];
    intros H; split; rewrite ?Pos2Z.inj_succ; lia.
Qed.

Lemma iter_shr_1_digits (p : positive) :
  forall mrs : shr_record,
    0 <= shr_m mrs ->
    0 <= shr_m (iter_pos shr_1 p mrs) /\
    Zdigits2 (shr_m (iter_pos shr_1 p mrs))
    = Z.max 0 (Zdigits2 (shr_m mrs) - Z.pos p).
Proof.
  induction p as [p IH|p IH|]; intros mrs H; cbn [iter_pos].
  - destruct (shr_1_digits mrs H) as [H1 E1].
    destruct (IH _ H1) as [H2 E2]. destruct (IH _ H2) as [H3 E3].
    split; [exact H3|]. rewrite E3, E2, E1. lia.
  - destruct (IH _ H) as [H2 E2]. destruct (IH _ H2) as [H3 E3].
    split; [exact H3|]. rewrite E3, E2. lia.
  - apply shr_1_digits. exact H.
Qed.

Lemma digits_positive (m : Z) : 0 <= m -> 0 < Zdigits2 m -> 0 < m.
Proof. destruct m; simpl; lia. Qed.

Lemma Zdigits2_pos (p : positive) : 0 < Zdigits2 (Z.pos p).
Proof. simpl. lia. Qed.

(** Rounding a positive mantissa to the format leaves a positive mantissa. *)
Lemma shr_fexp_positive (m : positive) (e : Z) (l : location) :
  emin prec emax <= e ->
  0 < shr_m (fst (shr_fexp prec emax (Z.pos m) e l)) /\
  emin prec emax <= snd (shr_fexp prec emax (Z.pos m) e l).
Proof.
  intros He. unfold shr_fexp, shr.
  assert (Hm : shr_m (shr_record_of_loc (Z.pos m) l) = Z.pos m)
    by (destruct l as [|[| |]]; reflexivity).
  pose proof (Zdigits2_pos m) as Hd.
  set (D := Zdigits2 (Z.pos m)) in *.
  destruct (fexp prec emax (D + e) - e) as [|n|n] eqn:En; cbn [fst snd];
    try (rewrite Hm; split; [lia | exact He]).
  destruct (iter_shr_1_digits n (shr_record_of_loc (Z.pos m) l)) as [H1 E1];
    [rewrite Hm; lia|].
  rewrite Hm in E1. fold D in E1.
  unfold fexp, emin, prec, emax in *. split; [|lia].
  apply digits_positive; [exact H1|]. rewrite E1. lia.
Qed.

Lemma round_nearest_even_positive (m : Z) (l : location) :
  0 < m -> 0 < round_nearest_even m l.
Proof.
  intros H. destruct l as [|[| |]]; simpl; try lia.
  destruct (Z.even m); lia.
Qed.

Lemma binary_round_aux_positive (s : bool) (m : positive) (e : Z) (l : location) :
  emin prec emax <= e ->
  (exists m' e', binary_round_aux prec emax s (Z.pos m) e l = S754_finite s m' e')
  \/ binary_round_aux prec emax s (Z.pos m) e l = S754_infinity s.
Proof.
  intros He. unfold binary_round_aux.
  destruct (shr_fexp_positive m e l He) as [H1 He1].
  destruct (shr_fexp prec emax (Z.pos m) e l) as [mrs1 e1]. cbn [fst snd] in *.
  pose proof (round_nearest_even_positive _ (loc_of_shr_record mrs1) H1) as H2.
  destruct (round_nearest_even (shr_m mrs1) (loc_of_shr_record mrs1))
    as [|m2|m2]; try lia.
  destruct (shr_fexp_positive m2 e1 loc_Exact He1) as [H3 _].
  destruct (shr_fexp prec emax (Z.pos m2) e1 loc_Exact) as [mrs3 e3].
  cbn [fst snd] in *.
  destruct (shr_m mrs3) as [|m3|m3]; try lia.
  destruct (e3 <=? emax - prec); [left; eauto | right; reflexivity].
Qed.

Lemma binary_round_positive (s : bool) (m : positive) :
  (exists m' e', binary_round prec emax s m 0 = S754_finite s m' e')
  \/ binary_round prec emax s m 0 = S754_infinity s.
Proof.
  unfold binary_round, shl_align.
  set (ex := fexp prec emax (Z.pos (digits2_pos m) + 0)).
  assert (Hex : emin prec emax <= ex) by (unfold ex, fexp; lia).
  destruct (ex - 0) as [|d|d] eqn:Ed; apply binary_round_aux_positive;
    unfold emin, prec, emax in *; lia.
Qed.

(** A positive int converts to a positive float or is beyond the floats:
    never to a zero, never to a NaN. *)
Lemma of_Z_positive (z : Z) :
  0 < z ->
  (exists m e, of_Z z = S754_finite false m e) \/ of_Z z = S754_infinity false.
Proof.
  destruct z as [|p|p]; try lia. intros _. apply binary_round_positive.
Qed.

Lemma float_int_operand_nonzero (z : Z) (x : t) :
  0 < z -> int_operand z = Ok x -> eqb x zero = false.
Proof.
  intros Hz H. apply int_operand_Ok in H as [Hfit ->].
  cbn [int_fits of_int Float] in *. unfold fits_float in Hfit.
  destruct (of_Z_positive z Hz) as [(m & e & E) | E]; rewrite E in *;
    [reflexivity | discriminate].
Qed.

Lemma float_round2_zero : round2 (zero (num := t)) = zero.
Proof. reflexivity. Qed.

End FloatFacts.

(** ** The metrics projector *)

Section Projector.

#[local] Existing Instance B64.Float.

(** The division of [avg_cost] runs on a positive share count, which never
    converts to a zero: the guard leaves [OverflowError] as the only way
    out. *)
Lemma avg_cost_of_guarded (s_price : B64.t) (s_shares : Z) :
  avg_cost_of s_price s_shares
  = (if s_shares >? 0
     then shares <- int_operand s_shares ;; Ok (quot s_price shares)
     else Ok zero).
Proof.
  unfold avg_cost_of. destruct (Z.gtb_spec s_shares 0) as [Hpos|_];
    [|reflexivity].
  destruct (int_operand s_shares) as [shares|e] eqn:Hconv; [|reflexivity].
  cbn [bind]. unfold py_div.
  rewrite (FloatFacts.float_int_operand_nonzero s_shares shares Hpos Hconv).
  reflexivity.
Qed.

Lemma avg_cost_of_Ok (s_price : B64.t) (s_shares : Z) (avg_cost : B64.t) :
  0 <= s_shares ->
  avg_cost_of s_price s_shares = Ok avg_cost ->
  avg_cost = avg_cost_spec s_price s_shares.
Proof.
  intros Hnn. rewrite avg_cost_of_guarded. unfold avg_cost_spec.
  destruct (Z.gtb_spec s_shares 0) as [Hpos|Hle].
  - replace (s_shares =? 0) with false by (symmetry; apply Z.eqb_neq; lia).
    intros H. apply bind_Ok in H as (shares & Hconv & [= <-]).
    apply int_operand_Ok in Hconv as [_ ->]. reflexivity.
  - replace (s_shares =? 0) with true by (symmetry; apply Z.eqb_eq; lia).
    intros [= <-]. reflexivity.
Qed.

Lemma avg_cost_of_fits (s_price : B64.t) (s_shares : Z) :
  (0 < s_shares -> int_fits s_shares = true) ->
  exists avg_cost, avg_cost_of s_price s_shares = Ok avg_cost.
Proof.
  intros Hfit. rewrite avg_cost_of_guarded.
  destruct (Z.gtb_spec s_shares 0) as [Hpos|_]; [|eexists; reflexivity].
  rewrite (int_operand_fits s_shares (Hfit Hpos)). eexists. reflexivity.
Qed.

Lemma avg_cost_of_Raise (s_price : B64.t) (s_shares : Z) (e : exn) :
  avg_cost_of s_price s_shares = Raise e -> e = OverflowError.
Proof.
  rewrite avg_cost_of_guarded. destruct (s_shares >? 0); [|discriminate].
  intros H. apply bind_Raise in H as [H | (shares & _ & H)];
    [exact (int_operand_Raise _ _ H) | discriminate].
Qed.

Lemma diff_vs_avg_of_spec (p avg_cost : B64.t) :
  diff_vs_avg_of p avg_cost = Ok (deviation_spec p avg_cost).
Proof.
  unfold diff_vs_avg_of, deviation_spec, py_div.
  destruct (eqb avg_cost zero); reflexivity.
Qed.

(** A step of the loop that returns has added the row of its level. *)
Lemma display_step_Ok (st st' : df_state) (p : B64.t) (q : Z) :
  0 <= df_S_shares st + q ->
  display_step st (p, q) = Ok st' ->
  st' = {| df_S_price := add (df_S_price st) (cost_of (p, q));
           df_S_shares := df_S_shares st + q;
           df_cum_invest := add (df_cum_invest st) (cost_of (p, q));
           df_rows := df_rows st ++
             [row_of p q (add (df_S_price st) (cost_of (p, q)))
                (df_S_shares st + q)
                (add (df_cum_invest st) (cost_of (p, q)))] |}.
Proof.
  intros Hnn H. unfold display_step in H.
  apply bind_Ok in H as (bought & Hconv & H).
  apply int_operand_Ok in Hconv as [_ ->].
  apply bind_Ok in H as (avg_cost & Havg & H).
  apply (avg_cost_of_Ok _ _ _ Hnn) in Havg. subst avg_cost.
  rewrite diff_vs_avg_of_spec in H. cbn [bind] in H.
  injection H as <-. reflexivity.
Qed.

Lemma display_step_fits (st : df_state) (p : B64.t) (q : Z) :
  int_fits q = true ->
  (0 < df_S_shares st + q -> int_fits (df_S_shares st + q) = true) ->
  exists st', display_step st (p, q) = Ok st'.
Proof.
  intros Hq Hs. unfold display_step.
  rewrite (int_operand_fits q Hq). cbn [bind].
  destruct (avg_cost_of_fits (add (df_S_price st) (mul p (of_int q)))
              (df_S_shares st + q) Hs) as (avg_cost & ->).
  cbn [bind]. rewrite diff_vs_avg_of_spec. cbn [bind].
  eexists. reflexivity.
Qed.

Lemma display_step_Raise (st : df_state) (pq : B64.t * Z) (e : exn) :
  display_step st pq = Raise e -> e = OverflowError.
Proof.
  destruct pq as [p q]. unfold display_step. intros H.
  apply bind_Raise in H as [H | (bought & _ & H)];
    [exact (int_operand_Raise _ _ H)|].
  apply bind_Raise in H as [H | (avg_cost & _ & H)];
    [exact (avg_cost_of_Raise _ _ _ H)|].
  rewrite diff_vs_avg_of_spec in H. discriminate.
Qed.

(** The loop from any state: when it returns it has appended one row per
    pair, each computed from the totals accumulated up to and including its
    level. *)
Lemma display_loop_Ok (l : list (B64.t * Z)) :
  forall st st' : df_state,
    0 <= df_S_shares st ->
    Forall (fun pq => 0 <= snd pq) l ->
    for_each display_step l st = Ok st' ->
    exists new,
      df_rows st' = df_rows st ++ new /\
      length new = length l /\
      forall i p q, nth_error l i = Some (p, q) ->
        nth_error new i
        = Some (row_of p q
                  (fold_left add (map cost_of (firstn (S i) l)) (df_S_price st))
                  (fold_left Z.add (map snd (firstn (S i) l)) (df_S_shares st))
                  (fold_left add (map cost_of (firstn (S i) l)) (df_cum_invest st))).
Proof.
  induction l as [|[p q] l IH]; intros st st' Hnn Hall Hrun.
  - injection Hrun as <-. exists []. repeat split.
    + rewrite app_nil_r. reflexivity.
    + intros [|i] p q H; discriminate.
  - inversion Hall as [|pq l' Hq Hall']; subst. cbn [snd] in Hq.
    cbn [for_each] in Hrun. apply bind_Ok in Hrun as (st1 & Hstep & Hrun).
    apply display_step_Ok in Hstep; [|lia].
    destruct (IH st1 st') as (new & Hrows & Hlen & Hnth);
      [subst st1; cbn [df_S_shares]; lia | exact Hall' | exact Hrun |].
    subst st1. cbn [df_rows df_S_price df_S_shares df_cum_invest] in *.
    eexists (_ :: new). repeat split.
    + rewrite Hrows, <- app_assoc. reflexivity.
    + simpl. f_equal. exact Hlen.
    + intros [|i] p' q' H.
      * injection H as <- <-. reflexivity.
      * simpl in H. apply Hnth in H. simpl nth_error. rewrite H. reflexivity.
Qed.

Lemma display_loop_fits (l : list (B64.t * Z)) :
  forall st : df_state,
    (forall i p q, nth_error l i = Some (p, q) ->
       int_fits q = true /\
       (0 < fold_left Z.add (map snd (firstn (S i) l)) (df_S_shares st) ->
        int_fits (fold_left Z.add (map snd (firstn (S i) l)) (df_S_shares st))
        = true)) ->
    exists st', for_each display_step l st = Ok st'.
Proof.
  induction l as [|[p q] l IH]; intros st Hfit.
  - exists st. reflexivity.
  - destruct (Hfit 0%nat p q eq_refl) as [Hq Hs]. cbn in Hs.
    destruct (display_step_fits st p q Hq Hs) as (st1 & Hstep).
    cbn [for_each]. rewrite Hstep. cbn [bind].
    assert (Hst1 : df_S_shares st1 = df_S_shares st + q).
    { unfold display_step in Hstep.
      apply bind_Ok in Hstep as (b & _ & Hstep).
      apply bind_Ok in Hstep as (a & _ & Hstep).
      apply bind_Ok in Hstep as (d & _ & [= <-]). reflexivity. }
    apply IH. intros i p' q' H. rewrite Hst1.
    exact (Hfit (S i) p' q' H).
Qed.

Lemma display_loop_Raise (l : list (B64.t * Z)) (e : exn) :
  forall st : df_state,
    for_each display_step l st = Raise e -> e = OverflowError.
Proof.
  induction l as [|pq l IH]; intros st; simpl; [discriminate|].
  intros H. apply bind_Raise in H as [H | (st1 & _ & H)];
    [exact (display_step_Raise _ _ _ H) | exact (IH _ H)].
Qed.

(** The rows of a table that is returned. *)
Lemma display_rows (prices : list B64.t) (shares : list Z) (rows : list row) :
  length prices = length shares ->
  Forall (fun q => 0 <= q) shares ->
  build_display_df prices shares = Ok rows ->
  length rows = length prices /\
  forall i p q,
    nth_error prices i = Some p -> nth_error shares i = Some q ->
    nth_error rows i
    = Some (row_of p q (running_cost prices shares i) (cum_shares shares i)
              (running_cost prices shares i)).
Proof.
  intros Hlen Hall Hrun. unfold build_display_df in Hrun.
  apply bind_Ok in Hrun as (st' & Hrun & [= <-]).
  apply display_loop_Ok in Hrun as (new & Hrows & Hnew & Hnth).
  - simpl in Hrows. cbn [df_S_price df_S_shares df_cum_invest] in Hnth.
    rewrite Hrows. split.
    + rewrite Hnew, length_combine, <- Hlen. apply Nat.min_id.
    + intros i p q Hp Hq.
      pose proof (Hnth i p q (nth_error_combine _ _ _ _ _ Hp Hq)) as Hrow.
      rewrite <- (firstn_map snd), (map_snd_combine _ _ Hlen) in Hrow.
      exact Hrow.
  - simpl. lia.
  - apply Forall_forall. intros [p q] Hin. apply in_combine_r in Hin.
    rewrite Forall_forall in Hall. apply Hall. exact Hin.
Qed.

Lemma display_returns (prices : list B64.t) (shares : list Z) :
  length prices = length shares ->
  table_ints_fit shares ->
  exists rows, build_display_df prices shares = Ok rows.
Proof.
  intros Hlen Hfit.
  destruct (display_loop_fits (combine prices shares)
              {| df_S_price := zero; df_S_shares := 0;
                 df_cum_invest := zero; df_rows := [] |}) as (st' & Hrun).
  - intros i p q H. cbn [df_S_shares].
    rewrite <- (firstn_map snd), (map_snd_combine _ _ Hlen).
    apply (Hfit i q).
    rewrite <- (map_snd_combine _ _ Hlen), nth_error_map, H. reflexivity.
  - exists (df_rows st'). unfold build_display_df. rewrite Hrun. reflexivity.
Qed.

Lemma display_raises (prices : list B64.t) (shares : list Z) (e : exn) :
  build_display_df prices shares = Raise e -> e = OverflowError.
Proof.
  unfold build_display_df. intros H.
  apply bind_Raise in H as [H | (st' & _ & H)]; [|discriminate].
  exact (display_loop_Raise _ _ _ H).
Qed.

(** C9: on a ladder of floats and a schedule of equal length (quantities are
    non-negative integers) the projector raises no [ZeroDivisionError]: it
    returns whenever every quantity and every positive share count fits a
    float, and otherwise the conversion of an int raises [OverflowError].
    The table it returns has one row per level.  In the row of level [i]
    the average cost is [running cost / cumulative shares], or 0 when no
    share has been bought so far, and the deviation is
    [(price - avg_cost) / avg_cost * 100], or 0 when the average cost is 0;
    the currency columns are rounded to 2 decimals and the cumulative share
    count is exact. *)
Theorem build_display_df_rows (prices : list B64.t) (shares : list Z) :
  length prices = length shares ->
  Forall (fun q => 0 <= q) shares ->
  (table_ints_fit shares ->
   exists rows, build_display_df prices shares = Ok rows) /\
  (forall e, build_display_df prices shares = Raise e -> e = OverflowError) /\
  (forall rows,
     build_display_df prices shares = Ok rows ->
     length rows = length prices /\
     forall i p q,
       nth_error prices i = Some p -> nth_error shares i = Some q ->
       exists r,
         nth_error rows i = Some r /\
         r = row_of p q (running_cost prices shares i) (cum_shares shares i)
               (running_cost prices shares i) /\
         (cum_shares shares i = 0 -> Average_Purchase_Price r = zero) /\
         (eqb (avg_cost_spec (running_cost prices shares i)
                 (cum_shares shares i)) zero = true ->
          Pct_Diff r = zero)).
Proof.
  intros Hlen Hall. split; [|split].
  - apply display_returns. exact Hlen.
  - apply display_raises.
  - intros rows Hrun.
    destruct (display_rows prices shares rows Hlen Hall Hrun) as [Hrows Hnth].
    split; [exact Hrows|]. intros i p q Hp Hq.
    eexists. split; [exact (Hnth i p q Hp Hq)|]. split; [reflexivity|]. split.
    + intros Hz. cbn [row_of Average_Purchase_Price].
      unfold avg_cost_spec. rewrite Hz. reflexivity.
    + intros Hz. cbn [row_of Pct_Diff].
      unfold deviation_spec. rewrite Hz. reflexivity.
Qed.

End Projector.

(** ** The theorems at work on concrete inputs *)

Module Runs.

Local Open Scope Q_scope.
Import Ladder.

(** The ladder of the worked example, in both arithmetics. *)
Example demo_ladder_exact :
  build_price_levels 10 75 60 "$" (5 # 2) = Some ([], Demo.ladder).
Proof. vm_compute. reflexivity. Qed.

Example demo_ladder_float :
  build_price_levels (N := B64.Float) 10 (B64.of_Q 75) (B64.of_Q 60) "$"
    (B64.of_Q (5 # 2))
  = Some ([], map B64.of_Q Demo.ladder).
Proof. vm_compute. reflexivity. Qed.

Example demo_search_float :
  find_optimal_allocation (N := B64.Float) (map B64.of_Q Demo.ladder)
    (B64.of_Z 100000) (B64.of_Q (2 # 100)) 30
  = Ok (Some (Demo.shares, B64.of_Q Demo.cost)).
Proof. vm_compute. reflexivity. Qed.

(** *** C1 *)

(** With a budget of 10 and a first price of 75 only [Q0 = 0] is feasible,
    and the search reports no result. *)
Lemma find_ignores_zero_lot :
  0 <= 10 /\
  find_optimal_allocation [75; 60] 10 (2 # 100) 5 = Ok None /\
  (0 <= 0 <= 5)%Z /\
  feasible [75; 60] 10 (2 # 100) 0.
Proof.
  split; [discriminate|]. split; [vm_compute; reflexivity|].
  split; [lia|]. exists ([0; 0]%Z, 0). split; vm_compute; reflexivity.
Qed.

Example find_ignores_zero_lot_float :
  find_optimal_allocation (N := B64.Float) [B64.of_Q 75; B64.of_Q 60]
    (B64.of_Z 10) (B64.of_Q (2 # 100)) 5 = Ok None /\
  schedule (N := B64.Float) [B64.of_Q 75; B64.of_Q 60] (B64.of_Q (2 # 100)) 0
  = Ok ([0; 0]%Z, B64.of_Z 0).
Proof. split; vm_compute; reflexivity. Qed.

Lemma find_infeasible_iff_witness :
  exists r,
    find_optimal_allocation [75; 60] 10 (2 # 100) 5 = Ok r /\
    (r = None <->
     forall q, (1 <= q <= 5)%Z -> ~ feasible [75; 60] 10 (2 # 100) q).
Proof.
  apply (find_infeasible_iff [75; 60] 10 (2 # 100) 5).
  intros q _. apply ExactFacts.schedule_total. discriminate.
Defined.

(** *** C2 *)


Example zero_tolerance_breaks_constraint_float :
  find_optimal_allocation (N := B64.Float) [B64.of_Q 75; B64.of_Q 60]
    (B64.of_Z 100) (B64.of_Z 0) 10
  = Ok (Some ([1; 0]%Z, B64.of_Q 75)).
Proof. vm_compute. reflexivity. Qed.


(** *** C3, C7, C10 *)

Lemma find_returns_largest_feasible_witness :
  leb Demo.cost 100000 = true /\
  Demo.cost = total_cost_of Demo.ladder Demo.shares /\
  exists Q0,
    nth_error Demo.shares 0 = Some Q0 /\ (0 <= Q0 <= 30)%Z /\
    schedule Demo.ladder (2 # 100) Q0 = Ok (Demo.shares, Demo.cost) /\
    feasible Demo.ladder 100000 (2 # 100) Q0 /\
    forall q, (Q0 < q <= 30)%Z -> ~ feasible Demo.ladder 100000 (2 # 100) q.
Proof.
  apply (find_returns_largest_feasible
           Demo.ladder 100000 (2 # 100) 30 Demo.shares Demo.cost).
  vm_compute. reflexivity.
Defined.

Lemma find_result_consistent_witness :
  length Demo.shares = length Demo.ladder /\
  Forall (fun q => (0 <= q)%Z) Demo.shares /\
  (exists best_Q0,
      scan Demo.ladder 100000 (2 # 100) 30
      = Ok (best_Q0, Some (Demo.shares, Demo.cost)) /\
      nth_error Demo.shares 0 = Some best_Q0) /\
  Demo.cost = total_cost_of Demo.ladder Demo.shares /\
  sum_products Demo.ladder Demo.shares = Ok Demo.cost.
Proof.
  apply (find_result_consistent ExactFacts.exact_ceil_nonneg
           Demo.ladder 100000 (2 # 100) 30 Demo.shares Demo.cost).
  vm_compute. reflexivity.
Defined.

Lemma best_Q0_monotone_in_budget_witness :
  exists best2 r2,
    scan Demo.ladder 200000 (2 # 100) 30 = Ok (best2, r2) /\
    (4 <= best2)%Z /\
    (Some (Demo.shares, Demo.cost) <> None -> r2 <> None).
Proof.
  apply (best_Q0_monotone_in_budget ExactFacts.exact_leb_trans
           Demo.ladder (2 # 100) 30 100000 200000 4
           (Some (Demo.shares, Demo.cost))).
  - reflexivity.
  - vm_compute. reflexivity.
Defined.

(** *** C4 *)

(** From 1.00390625 down to 1 in steps of 0.001953125 the prices before
    rounding are 1.00390625, 1.001953125 and 1; all three round to 1.00. *)
Lemma rounding_collapses_ladder :
  1 < 257 # 256 /\ 0 < 1 # 512 /\
  build_price_levels 5 (257 # 256) 1 "$" (1 # 512) = Some ([], [1; 1; 1]) /\
  ~ strictly_decreasing [1; 1; 1] /\
  nth_error [1; 1; 1] 1 = Some 1 /\ 1 <= 1.
Proof.
  split; [reflexivity|]. split; [reflexivity|].
  split; [vm_compute; reflexivity|].
  split; [|split; [reflexivity | discriminate]].
  intros [H _]. revert H. apply Qlt_irrefl.
Qed.

Example rounding_collapses_ladder_float :
  build_price_levels (N := B64.Float) 5 (B64.of_Q (257 # 256)) (B64.of_Q 1) "$"
    (B64.of_Q (1 # 512))
  = Some ([], [B64.of_Q 1; B64.of_Q 1; B64.of_Q 1]).
Proof. vm_compute. reflexivity. Qed.

Lemma build_price_levels_ladder_witness :
  exists fuel ladder mids,
    (forall fuel', (fuel <= fuel')%nat ->
       build_price_levels fuel' 75 60 "$" (5 # 2) = Some ([], ladder)) /\
    ladder = map round2 (75 :: mids ++ [60]) /\
    strictly_decreasing (75 :: mids ++ [60]) /\
    Forall (fun x => 60 < x) mids /\
    non_increasing ladder /\
    hd_error ladder = Some (round2 75) /\
    last ladder 0 = round2 60 /\
    Forall (fun x => round2 60 <= x) ladder.
Proof.
  apply (ExactFacts.build_price_levels_ladder 75 60 "$" (5 # 2)).
  - reflexivity.
  - reflexivity.
  - left. reflexivity.
Defined.

(** *** C5, C6 *)

Lemma zero_tolerance_is_guarded_witness :
  (forall Q0 Q total_cost,
     schedule [75; 60] 0 Q0 = Ok (Q, total_cost) ->
     Q = Q0 :: repeat 0%Z (length [75; 60] - 1)) /\
  (forall Q0, [75; 60] <> [] ->
     int_fits (num := Q) 0 = true -> int_fits (num := Q) Q0 = true ->
     schedule [75; 60] 0 Q0
     = Ok (Q0 :: repeat 0%Z (length [75; 60] - 1),
           total_cost_of [75; 60] (Q0 :: repeat 0%Z (length [75; 60] - 1)))) /\
  find_optimal_allocation [75; 60] 100 0 10 <> Raise ZeroDivisionError /\
  ([75; 60] <> [] ->
   (forall Q0, (0 <= Q0 <= 10)%Z -> int_fits (num := Q) Q0 = true) ->
   exists r, find_optimal_allocation [75; 60] 100 0 10 = Ok r).
Proof.
  apply (zero_tolerance_is_guarded [75; 60] 100 0 10).
  intros p _. apply ExactFacts.zero_tolerance_denominators. reflexivity.
Defined.

Lemma build_price_levels_degrades_witness :
  build_price_levels 0 50 60 "$" (5 # 2)
  = Some ([warning_start_above_floor], [round2 50]) /\
  build_price_levels 0 75 60 "%" 0
  = Some ([warning_interval_positive], [round2 75; round2 60]).
Proof.
  split.
  - apply (proj1 (build_price_levels_degrades 0 50 60 "$" (5 # 2))).
    reflexivity.
  - apply (proj2 (build_price_levels_degrades 0 75 60 "%" 0));
      reflexivity.
Defined.

(** *** C9 *)

Lemma build_display_df_rows_witness :
  (table_ints_fit [0; 2]%Z ->
   exists rows, build_display_df [B64.of_Q 75; B64.of_Q 60] [0; 2]%Z = Ok rows) /\
  (forall e, build_display_df [B64.of_Q 75; B64.of_Q 60] [0; 2]%Z = Raise e ->
             e = OverflowError) /\
  (forall rows,
     build_display_df [B64.of_Q 75; B64.of_Q 60] [0; 2]%Z = Ok rows ->
     length rows = length [B64.of_Q 75; B64.of_Q 60] /\
     forall i p q,
       nth_error [B64.of_Q 75; B64.of_Q 60] i = Some p ->
       nth_error [0; 2]%Z i = Some q ->
       exists r,
         nth_error rows i = Some r /\
         r = row_of p q
               (running_cost [B64.of_Q 75; B64.of_Q 60] [0; 2]%Z i)
               (cum_shares [0; 2]%Z i)
               (running_cost [B64.of_Q 75; B64.of_Q 60] [0; 2]%Z i) /\
         (cum_shares [0; 2]%Z i = 0%Z ->
          Average_Purchase_Price r = B64.of_Z 0) /\
         (SFeqb (avg_cost_spec
                   (running_cost [B64.of_Q 75; B64.of_Q 60] [0; 2]%Z i)
                   (cum_shares [0; 2]%Z i)) (B64.of_Z 0) = true ->
          Pct_Diff r = B64.of_Z 0)).
Proof.
  apply (build_display_df_rows [B64.of_Q 75; B64.of_Q 60] [0; 2]%Z).
  - reflexivity.
  - repeat constructor; lia.
Defined.

Section FloatRuns.

#[local] Existing Instance B64.Float.

(** Nothing bought at 75.0 and two shares at 60.0: the first row holds no
    share and shows the average 0.0 and the deviation 0.0. *)
Example table_without_a_share_at_first :
  table_ints_fit [0; 2]%Z /\
  build_display_df [B64.of_Q 75; B64.of_Q 60] [0; 2]%Z
  = Ok [ {| Price := B64.of_Q 75; Shares_Purchased := 0;
            Average_Purchase_Price := B64.of_Z 0; Pct_Diff := B64.of_Z 0;
            Cost_of_Purchase := B64.of_Z 0;
            Cumulative_Investment := B64.of_Z 0;
            Cumulative_Shares := 0 |};
         {| Price := B64.of_Q 60; Shares_Purchased := 2;
            Average_Purchase_Price := B64.of_Q 60; Pct_Diff := B64.of_Z 0;
            Cost_of_Purchase := B64.of_Q 120;
            Cumulative_Investment := B64.of_Q 120;
            Cumulative_Shares := 2 |} ].
Proof.
  split; [|vm_compute; reflexivity].
  intros [|[|[|i]]] q H; simpl in H; try discriminate;
    injection H as <-; split; try reflexivity; intros _; reflexivity.
Qed.

(** A share count beyond the float range cannot be multiplied by a price:
    the table raises [OverflowError] where it converts the int. *)
Example table_of_a_huge_quantity :
  build_display_df [B64.of_Q 75] [2 ^ 1024]%Z = Raise OverflowError.
Proof. vm_compute. reflexivity. Qed.

(** *** C2, on floats *)

(** On floats a positive tolerance does not secure the bound either: with
    the smallest positive float as tolerance and a price of 0.5 the
    denominator [avg_cost_margin * p_i] rounds to 0.0, nothing is bought at
    the second level, and the average stays at 75.0. *)
Example positive_tolerance_breaks_constraint_float :
  ltb zero (S754_finite false 1 (-1074)) = true /\
  mul (S754_finite false 1 (-1074)) (B64.of_Q (1 # 2)) = zero /\
  find_optimal_allocation [B64.of_Q 75; B64.of_Q (1 # 2)] (B64.of_Z 100000)
    (S754_finite false 1 (-1074)) 1400
  = Ok (Some ([1333; 0]%Z, B64.of_Q 99975)) /\
  leb (quot (B64.of_Q 99975) (B64.of_Z 1333))
      (mul (add (B64.of_Z 1) (S754_finite false 1 (-1074))) (B64.of_Q (1 # 2)))
  = false.
Proof. repeat split; vm_compute; reflexivity. Qed.

(** A candidate beyond the float range stops the search where the source
    multiplies the first price by it. *)
Example search_of_a_huge_lot :
  schedule [B64.of_Q 75; B64.of_Q 60] (B64.of_Q (2 # 100)) (2 ^ 1024)
  = Raise OverflowError.
Proof. vm_compute. reflexivity. Qed.

End FloatRuns.

End Runs.

(** * Further properties of the code *)

(** ** For every number type *)

Section Coverage.

Context {num : Type} {N : Num num}.

(** *** The ladder, whatever the arithmetic *)

Lemma price_loop_tail (ty : string) (iv e : num) (fuel : nat) :
  forall cur prices out,
    price_loop fuel ty iv e cur prices = Some out ->
    exists tail,
      out = prices ++ tail /\ Forall (fun x => leb x e = false) tail.
Proof.
  induction fuel as [|fuel IH]; intros cur prices out Hrun; [discriminate|].
  cbn [price_loop] in Hrun.
  destruct (leb (next_price_of ty iv cur) e) eqn:Hle.
  - injection Hrun as <-. exists []. split; [symmetry; apply app_nil_r|constructor].
  - destruct (IH _ _ _ Hrun) as (tail & -> & Htail).
    exists (next_price_of ty iv cur :: tail). split.
    + rewrite <- app_assoc. reflexivity.
    + constructor; assumption.
Qed.

(** X1: in any arithmetic, floats included, a ladder that is returned begins
    with [round(start_price, 2)]; when the test [start_price <= end_price]
    fails it has at least two levels and ends with [round(end_price, 2)],
    so the floor is never overshot; and when no warning is shown, every
    level strictly between the two, before rounding, failed the test
    [next_price <= end_price]. *)
Theorem ladder_shape_any_arithmetic
    (fuel : nat) (start_price end_price : num) (interval_type : string)
    (interval_value : num) (warnings : list string) (ladder : list num) :
  build_price_levels fuel start_price end_price interval_type interval_value
  = Some (warnings, ladder) ->
  hd_error ladder = Some (round2 start_price) /\
  (leb start_price end_price = false ->
   last ladder (round2 start_price) = round2 end_price /\
   (2 <= length ladder)%nat) /\
  (warnings = [] ->
   exists mids,
     ladder = map round2 (start_price :: mids ++ [end_price]) /\
     Forall (fun x => leb x end_price = false) mids).
Proof.
  unfold build_price_levels.
  destruct (leb start_price end_price) eqn:Hse.
  - intros [= <- <-]. repeat split; discriminate.
  - destruct (leb interval_value zero) eqn:Hiv.
    + intros [= <- <-]. repeat split; try discriminate. simpl. lia.
    + destruct (price_loop fuel interval_type interval_value end_price
                  start_price [start_price]) as [prices|] eqn:Hloop;
        [|discriminate].
      intros [= <- <-].
      destruct (price_loop_tail _ _ _ _ _ _ _ Hloop) as (mids & -> & Hmids).
      simpl app. repeat split.
      * rewrite app_comm_cons, map_app. apply last_last.
      * simpl. rewrite length_map, length_app. simpl. lia.
      * intros _. exists mids. split; [reflexivity | exact Hmids].
Qed.

(** *** The search at its bounds *)

(** X2: on an empty ladder the search raises [IndexError] at its first
    candidate, for any bound [max_Q0_search >= 0]; with a negative bound it
    tries no candidate and returns no result, whatever the ladder. *)
Theorem find_on_empty_ladder_or_negative_bound
    (prices : list num) (budget m : num) (max_Q0_search : Z) :
  (0 <= max_Q0_search ->
   find_optimal_allocation [] budget m max_Q0_search = Raise IndexError) /\
  (max_Q0_search < 0 ->
   find_optimal_allocation prices budget m max_Q0_search = Ok None).
Proof.
  unfold find_optimal_allocation, scan, range. split; intros Hmax.
  - destruct (Z.to_nat (max_Q0_search + 1)) as [|n] eqn:E; [lia|].
    reflexivity.
  - replace (Z.to_nat (max_Q0_search + 1)) with 0%nat by lia. reflexivity.
Qed.

Lemma for_each_app {X S : Type} (body : S -> X -> result S)
    (l1 l2 : list X) (s : S) :
  for_each body (l1 ++ l2) s
  = (s' <- for_each body l1 s ;; for_each body l2 s').
Proof.
  revert s. induction l1 as [|x l1 IH]; intros s; simpl; [reflexivity|].
  destruct (body s x) as [s1|e]; simpl; [apply IH | reflexivity].
Qed.

Lemma range_split (n1 n2 : Z) :
  n1 <= n2 -> exists rest, range n2 = range n1 ++ rest.
Proof.
  intros Hle. unfold range.
  exists (map Z.of_nat (seq (Z.to_nat n1) (Z.to_nat n2 - Z.to_nat n1))).
  rewrite <- map_app, <- seq_app. do 2 f_equal. lia.
Qed.

(** A step of the scan never lowers [best_Q0] and never drops a solution. *)
Lemma scan_step_keeps (prices : list num) (budget m : num) (b b' : best) (Q0 : Z) :
  scan_step prices budget m b Q0 = Ok b' ->
  fst b <= fst b' /\ (snd b <> None -> snd b' <> None).
Proof.
  unfold scan_step. intros H. apply bind_Ok in H as (sol & _ & H).
  destruct (leb (snd sol) budget); [destruct (Q0 >? fst b) eqn:Hgt|];
    injection H as <-; simpl; try (split; [lia | tauto]).
  apply Z.gtb_lt in Hgt. split; [lia | discriminate].
Qed.

Lemma for_each_scan_keeps (prices : list num) (budget m : num) (l : list Z) :
  forall b b',
    for_each (scan_step prices budget m) l b = Ok b' ->
    fst b <= fst b' /\ (snd b <> None -> snd b' <> None).
Proof.
  induction l as [|Q0 l IH]; intros b b' H; simpl in H.
  - injection H as <-. split; [lia | tauto].
  - apply bind_Ok in H as (b1 & Hstep & H).
    apply scan_step_keeps in Hstep as [H1 H2].
    apply IH in H as [H3 H4]. split; [lia | tauto].
Qed.

(** X3: with the ladder, the budget and the tolerance fixed, raising
    [max_Q0_search] never lowers the [best_Q0] the scan ends with and never
    turns a result into no result: the longer scan begins with the shorter
    one. *)
Theorem best_Q0_monotone_in_search_bound
    (prices : list num) (budget m : num) (max1 max2 : Z)
    (best2 : Z) (r2 : option (list Z * num)) :
  max1 <= max2 ->
  scan prices budget m max2 = Ok (best2, r2) ->
  exists best1 r1,
    scan prices budget m max1 = Ok (best1, r1) /\
    best1 <= best2 /\
    (r1 <> None -> r2 <> None).
Proof.
  intros Hle Hscan. unfold scan in *.
  destruct (range_split (max1 + 1) (max2 + 1) ltac:(lia)) as (rest & Hsplit).
  rewrite Hsplit, for_each_app in Hscan.
  apply bind_Ok in Hscan as ([best1 r1] & H1 & Hrest).
  exists best1, r1. split; [exact H1|].
  apply for_each_scan_keeps in Hrest. exact Hrest.
Qed.

(** *** What can escape the search *)

(** Past the level-0 indexing, a candidate raises only what the conversion
    of an int raises, [OverflowError], and what [math.ceil] raises. *)
Lemma buy_at_raises (m p_i sp : num) (ss : Z) (e : exn) :
  buy_at m p_i sp ss = Raise e ->
  e = OverflowError \/ exists x, ceil x = Raise e.
Proof.
  unfold buy_at, py_div. intros H.
  apply bind_Raise in H as [H | (shares & _ & H)];
    [left; exact (int_operand_Raise _ _ H)|].
  revert H. destruct (eqb (mul m p_i) zero); simpl; [discriminate|].
  destruct (ltb (quot _ _) zero); simpl; [discriminate|].
  intros H. right. eexists. exact H.
Qed.

Lemma topups_raises (m : num) (ps : list num) (e : exn) :
  forall sp ss, topups m ps sp ss = Raise e ->
    e = OverflowError \/ exists x, ceil x = Raise e.
Proof.
  induction ps as [|p ps IH]; intros sp ss; simpl; [discriminate|].
  intros H. apply bind_Raise in H as [H | (b & _ & H)].
  - exact (buy_at_raises _ _ _ _ _ H).
  - apply bind_Raise in H as [H | (bought & _ & H)];
      [left; exact (int_operand_Raise _ _ H)|].
    apply bind_Raise in H as [H | (rest & _ & H)]; [|discriminate].
    exact (IH _ _ H).
Qed.

Lemma schedule_raises (prices : list num) (m : num) (Q0 : Z) (e : exn) :
  prices <> [] ->
  schedule prices m Q0 = Raise e ->
  e = OverflowError \/ exists x, ceil x = Raise e.
Proof.
  intros Hne. destruct prices as [|p_0 ps]; [congruence|].
  rewrite schedule_cons. intros H.
  apply bind_Raise in H as [H | (lot & _ & H)];
    [left; exact (int_operand_Raise _ _ H)|].
  apply bind_Raise in H as [H | (bs & _ & H)];
    [exact (topups_raises _ _ _ _ _ H)|].
  apply bind_Raise in H as [H | (c & _ & H)]; [|discriminate].
  left. exact (for_each_sum_step_Raise _ _ _ H).
Qed.

Lemma find_raises (prices : list num) (budget m : num) (max_Q0_search : Z)
    (e : exn) :
  prices <> [] ->
  find_optimal_allocation prices budget m max_Q0_search = Raise e ->
  e = OverflowError \/ exists x, ceil x = Raise e.
Proof.
  intros Hne. unfold find_optimal_allocation, scan. intros H.
  apply bind_Raise in H as [H | (b & _ & H)]; [|discriminate].
  revert H. generalize (0, @None (list Z * num)).
  induction (range (max_Q0_search + 1)) as [|Q0 l IH]; intros b; simpl;
    [discriminate|].
  intros H. apply bind_Raise in H as [H | (b1 & _ & H)]; [|exact (IH _ H)].
  unfold scan_step in H. apply bind_Raise in H as [H | (sol & _ & H)].
  - exact (schedule_raises _ _ _ _ Hne H).
  - destruct (leb (snd sol) budget); [destruct (Q0 >? fst b)|]; discriminate.
Qed.

End Coverage.

Lemma fold_left_add_ge (l : list Z) :
  Forall (fun q => 0 <= q) l -> forall a, a <= fold_left Z.add l a.
Proof.
  induction 1 as [|x l Hx _ IH]; intros a; simpl; [lia|].
  specialize (IH (a + x)). lia.
Qed.

Lemma Forall_firstn {A : Type} (P : A -> Prop) (n : nat) (l : list A) :
  Forall P l -> Forall P (firstn n l).
Proof.
  intros H. apply Forall_forall. intros x Hx.
  rewrite Forall_forall in H. apply H.
  rewrite <- (firstn_skipn n l). apply in_or_app. left. exact Hx.
Qed.

(** ** The application, on floats *)

Section Application.

#[local] Existing Instance B64.Float.

Lemma float_ceil_raises (x : B64.t) (e : exn) :
  ceil x = Raise e -> e = OverflowError \/ e = ValueError.
Proof.
  destruct x; simpl; try discriminate; intros [= <-];
    [left | right]; reflexivity.
Qed.

(** The table of a schedule whose first quantity is at least 1 and whose
    other quantities are non-negative: one row per level, at least one share
    held in every row. *)
Lemma table_of_schedule (p_0 : B64.t) (ps : list B64.t) (q_0 : Z)
    (bs : list Z) (df : list row) :
  1 <= q_0 -> Forall (fun q => 0 <= q) bs -> length bs = length ps ->
  build_display_df (p_0 :: ps) (q_0 :: bs) = Ok df ->
  length df = length (p_0 :: ps) /\
  Forall (fun r => 1 <= Cumulative_Shares r) df.
Proof.
  intros Hq Hbs Hlen Hdf.
  destruct (display_rows (p_0 :: ps) (q_0 :: bs) df) as [Hrows Hnth].
  - simpl. rewrite Hlen. reflexivity.
  - constructor; [lia | exact Hbs].
  - exact Hdf.
  - split; [exact Hrows|].
    apply Forall_forall. intros r Hr.
    apply In_nth_error in Hr as (i & Hi).
    assert (Hlt : (i < length (p_0 :: ps))%nat).
    { rewrite <- Hrows. apply nth_error_Some. congruence. }
    destruct (nth_error (p_0 :: ps) i) as [p|] eqn:Hp;
      [|apply nth_error_None in Hp; lia].
    destruct (nth_error (q_0 :: bs) i) as [q|] eqn:Hqi;
      [|apply nth_error_None in Hqi; simpl in Hqi, Hlt; lia].
    rewrite (Hnth i p q Hp Hqi) in Hi. injection Hi as <-.
    cbn [row_of Cumulative_Shares]. unfold cum_shares.
    cbn [firstn fold_left].
    pose proof (fold_left_add_ge (firstn i bs) (Forall_firstn _ i bs Hbs)
                  (0 + q_0)) as Hge.
    lia.
Qed.

(** X4: the run behind the button, on floats.  Whatever the inputs, the
    ladder it searches is not empty, so no [IndexError] and no
    [ZeroDivisionError] can escape it: only the [OverflowError] of an int or
    an infinity that does not convert, and the [ValueError] of [math.ceil]
    on a NaN.  It shows the failure message exactly when the search returns
    no result; and when it shows a table, the table has one row per ladder
    level and at least one share held in every row, so no row falls back to
    the zero average cost. *)
Theorem run_simulation_outcomes
    (fuel : nat) (budget start_price end_price : B64.t)
    (interval_type : string) (interval_value margin : B64.t)
    (warnings : list string) (r : result screen) :
  run_simulation fuel budget start_price end_price interval_type
    interval_value margin = Some (warnings, r) ->
  exists prices,
    build_price_levels fuel start_price end_price interval_type interval_value
    = Some (warnings, prices) /\
    prices <> [] /\
    (forall e, r = Raise e -> e = OverflowError \/ e = ValueError) /\
    (forall message,
        r = Ok (Failure message) <->
        message = no_solution_message /\
        find_optimal_allocation prices budget margin max_Q0_search_default
        = Ok None) /\
    (forall total_spent df,
        r = Ok (Success total_spent df) ->
        exists Q total_cost,
          find_optimal_allocation prices budget margin max_Q0_search_default
          = Ok (Some (Q, total_cost)) /\
          total_spent = round2 total_cost /\
          build_display_df prices Q = Ok df /\
          length df = length prices /\
          Forall (fun row => 1 <= Cumulative_Shares row) df).
Proof.
  unfold run_simulation. intros Hrun.
  destruct (build_price_levels fuel start_price end_price interval_type
              interval_value) as [[w prices]|] eqn:Hbuild; [|discriminate].
  injection Hrun as -> <-.
  exists prices. split; [reflexivity|].
  assert (Hne : prices <> []).
  { unfold build_price_levels in Hbuild.
    destruct (leb start_price end_price); [injection Hbuild as _ <-; discriminate|].
    destruct (leb interval_value zero); [injection Hbuild as _ <-; discriminate|].
    destruct (price_loop _ _ _ _ _ _) as [ps|]; [|discriminate].
    injection Hbuild as _ <-. destruct ps; discriminate. }
  split; [exact Hne|].
  destruct (find_optimal_allocation prices budget margin max_Q0_search_default)
    as [[[Q c]|]|e0] eqn:Hfind; cbn [bind].
  - (* a result: the table, or the exception of a conversion *)
    destruct (build_display_df prices Q) as [df|e1] eqn:Hdf; cbn [bind].
    + split; [discriminate|]. split.
      * intros message. split; [discriminate | intros [_ H]; discriminate].
      * intros total_spent df' [= <- <-].
        pose proof Hfind as Hscan. apply find_Ok in Hscan as (best_Q0 & Hscan).
        apply scan_best_of in Hscan as [_ Hsol]. cbn [fst snd] in Hsol.
        destruct Hsol as (Hpos & _ & Hsched & _).
        destruct (schedule_Ok _ _ _ _ _ Hsched)
          as (p_0 & ps & bs & -> & -> & Hbs & _).
        destruct (table_of_schedule p_0 ps best_Q0 bs df ltac:(lia)
                    (topups_nonneg FloatFacts.float_ceil_nonneg _ _ _ _ _ Hbs)
                    (topups_length _ _ _ _ _ Hbs) Hdf) as [Hlen Hall].
        exists (best_Q0 :: bs), c. repeat split; assumption.
    + split; [|split].
      * intros e [= <-]. left. exact (display_raises _ _ _ Hdf).
      * intros message. split; [discriminate | intros [_ H]; discriminate].
      * discriminate.
  - (* no result: the message *)
    split; [discriminate|]. split.
    + intros message. split.
      * intros [= <-]. split; reflexivity.
      * intros [-> _]. reflexivity.
    + discriminate.
  - (* an exception of the search *)
    split; [|split].
    + intros e [= <-].
      destruct (find_raises _ _ _ _ _ Hne Hfind) as [-> | (x & Hx)];
        [left; reflexivity | exact (float_ceil_raises _ _ Hx)].
    + intros message. split; [discriminate | intros [_ H]; discriminate].
    + discriminate.
Qed.

End Application.

(** ** In exact arithmetic *)

Module ExactCoverage.

Local Open Scope Q_scope.
Import Ladder ExactFacts.

(** *** The search on a one-level ladder *)

Lemma schedule_single (p m : Q) (q : Z) :
  schedule [p] m q = Ok ([q], total_cost_of [p] [q]).
Proof. rewrite exact_schedule_cons. reflexivity. Qed.

Lemma affordable_iff_floor (p budget : Q) (q : Z) :
  0 < p ->
  (total_cost_of [p] [q] <= budget <-> (q <= Qfloor (budget / p))%Z).
Proof.
  intros Hp.
  assert (Hcost : total_cost_of [p] [q] == p * inject_Z q).
  { unfold total_cost_of, py_sum, cost_of. simpl. ring. }
  rewrite Hcost. split.
  - intros Hle.
    assert (Hq : inject_Z q <= budget / p).
    { apply Qle_shift_div_l; [exact Hp|]. rewrite Qmult_comm. exact Hle. }
    rewrite <- (Qfloor_Z q). apply Qfloor_resp_le. exact Hq.
  - intros Hle.
    assert (Hq : inject_Z q <= budget / p).
    { apply Qle_trans with (inject_Z (Qfloor (budget / p))).
      - rewrite <- Zle_Qle. exact Hle.
      - apply Qfloor_le. }
    apply (Qmult_le_r _ _ p Hp) in Hq.
    assert (E : budget / p * p == budget)
      by (field; intros E; rewrite E in Hp; exact (Qlt_irrefl _ Hp)).
    rewrite E in Hq. rewrite Qmult_comm. exact Hq.
Qed.

Lemma feasible_single (p budget m : Q) (q : Z) :
  0 < p ->
  (feasible [p] budget m q <-> (q <= Qfloor (budget / p))%Z).
Proof.
  intros Hp. rewrite <- (affordable_iff_floor p budget q Hp).
  unfold feasible. rewrite schedule_single. split.
  - intros (sol & [= <-] & Hle). apply Qle_bool_iff. exact Hle.
  - intros Hle. eexists. split; [reflexivity|]. apply Qle_bool_iff. exact Hle.
Qed.

(** X5: on a one-level ladder [[p]] with [p > 0] (what the builder returns
    for an inverted start and floor) the search buys as many shares as the
    budget affords at that price, capped by the search bound:
    [k = min(max_Q0_search, floor(budget / p))]; it returns [[k]] with cost
    [p * k] when [k >= 1], and no result otherwise. *)
Theorem single_level_allocation (p budget m : Q) (max_Q0_search : Z) :
  0 < p ->
  find_optimal_allocation [p] budget m max_Q0_search
  = Ok (if (1 <=? Z.min max_Q0_search (Qfloor (budget / p)))%Z
        then Some ([Z.min max_Q0_search (Qfloor (budget / p))],
                   total_cost_of [p]
                     [Z.min max_Q0_search (Qfloor (budget / p))])
        else None).
Proof.
  intros Hp. set (k := Z.min max_Q0_search (Qfloor (budget / p))).
  destruct (scan_total [p] budget m max_Q0_search) as ([best_Q0 r] & Hscan).
  { intros q _. apply schedule_total. discriminate. }
  replace (find_optimal_allocation [p] budget m max_Q0_search) with (Ok r)
    by (symmetry; apply find_Ok; exists best_Q0; exact Hscan).
  f_equal.
  apply scan_best_of in Hscan as [Hmax Hsol]. simpl in Hmax, Hsol.
  destruct (Z.leb_spec 1 k) as [Hk|Hk].
  - assert (Hkbest : (k <= best_Q0)%Z).
    { apply Hmax; [apply in_range; lia|]. apply feasible_single; [exact Hp | lia]. }
    destruct r as [sol|]; [|lia].
    destruct Hsol as (Hpos & Hin & Hsched & Hle).
    apply in_range in Hin.
    assert (Hfeas : (best_Q0 <= Qfloor (budget / p))%Z).
    { apply (feasible_single p budget m best_Q0 Hp).
      exists sol. split; assumption. }
    assert (best_Q0 = k) by lia. subst best_Q0.
    rewrite schedule_single in Hsched. injection Hsched as <-. reflexivity.
  - destruct r as [sol|]; [exfalso | reflexivity].
    destruct Hsol as (Hpos & Hin & Hsched & Hle).
    apply in_range in Hin.
    assert (Hfeas : (best_Q0 <= Qfloor (budget / p))%Z).
    { apply (feasible_single p budget m best_Q0 Hp).
      exists sol. split; assumption. }
    lia.
Qed.

(** *** The level-0 purchase and the budget *)

Lemma cost_fold_ge (ps : list Q) (bs : list Z) :
  Forall (fun p => 0 <= p) ps -> Forall (fun q => (0 <= q)%Z) bs ->
  forall a, a <= fold_left add (map cost_of (combine ps bs)) a.
Proof.
  intros Hps. revert bs. induction Hps as [|p ps Hp _ IH]; intros bs Hbs a.
  - simpl. apply Qle_refl.
  - destruct Hbs as [|b bs Hb Hbs]; simpl; [apply Qle_refl|].
    apply Qle_trans with (a + cost_of (p, b)); [|apply IH; exact Hbs].
    unfold cost_of. simpl.
    assert (0 <= p * inject_Z b).
    { apply Qmult_le_0_compat; [exact Hp|].
      change 0 with (inject_Z 0). rewrite <- Zle_Qle. exact Hb. }
    lra.
Qed.

Lemma schedule_cost_ge (p_0 : Q) (ps : list Q) (m : Q) (q : Z)
    (shares : list Z) (c : Q) :
  Forall (fun p => 0 <= p) ps ->
  schedule (p_0 :: ps) m q = Ok (shares, c) ->
  p_0 * inject_Z q <= c.
Proof.
  intros Hps Hsched.
  destruct (schedule_Ok _ _ _ _ _ Hsched) as (p' & ps' & bs & [= <- <-] & -> & Hbs & ->).
  pose proof (topups_nonneg exact_ceil_nonneg _ _ _ _ _ Hbs) as Hnn.
  unfold total_cost_of, py_sum. cbn [combine map fold_left].
  apply Qle_trans with (zero + cost_of (p_0, q)).
  - unfold cost_of. simpl. change (inject_Z 0) with 0. lra.
  - apply (cost_fold_ge ps bs Hps Hnn).
Qed.

(** X6: with non-negative prices below level 0, the level-0 purchase alone
    never exceeds the budget: every result has [price[0] * Q[0] <= total
    cost <= budget] and [Q[0] >= 1]; so when the budget is below one share
    at the first price the search returns no result. *)
Theorem first_level_within_budget
    (p_0 : Q) (ps : list Q) (budget m : Q) (max_Q0_search : Z) :
  Forall (fun p => 0 <= p) ps ->
  (forall shares c,
      find_optimal_allocation (p_0 :: ps) budget m max_Q0_search
      = Ok (Some (shares, c)) ->
      exists q_0 rest,
        shares = q_0 :: rest /\ (1 <= q_0)%Z /\
        p_0 * inject_Z q_0 <= c /\ c <= budget) /\
  (0 <= p_0 -> budget < p_0 ->
   find_optimal_allocation (p_0 :: ps) budget m max_Q0_search = Ok None).
Proof.
  intros Hps.
  assert (Hres : forall shares c,
      find_optimal_allocation (p_0 :: ps) budget m max_Q0_search
      = Ok (Some (shares, c)) ->
      exists q_0 rest,
        shares = q_0 :: rest /\ (1 <= q_0)%Z /\
        p_0 * inject_Z q_0 <= c /\ c <= budget).
  { intros shares c Hfind. apply find_Ok in Hfind as (best_Q0 & Hscan).
    apply scan_best_of in Hscan as [_ Hsol]. simpl in Hsol.
    destruct Hsol as (Hpos & _ & Hsched & Hle).
    pose proof (schedule_cost_ge _ _ _ _ _ _ Hps Hsched) as Hcost.
    destruct (schedule_Ok _ _ _ _ _ Hsched) as (_ & _ & bs & _ & -> & _ & _).
    exists best_Q0, bs. repeat split; [lia | exact Hcost|].
    apply Qle_bool_iff. exact Hle. }
  split; [exact Hres|].
  intros Hp0 Hlt.
  destruct (scan_total (p_0 :: ps) budget m max_Q0_search) as ([best_Q0 r] & Hscan).
  { intros q _. apply schedule_total. discriminate. }
  assert (Hfind : find_optimal_allocation (p_0 :: ps) budget m max_Q0_search = Ok r)
    by (apply find_Ok; exists best_Q0; exact Hscan).
  rewrite Hfind. f_equal. destruct r as [[shares c]|]; [exfalso | reflexivity].
  destruct (Hres shares c Hfind) as (q_0 & rest & _ & Hq & Hcost & Hbud).
  assert (p_0 <= p_0 * inject_Z q_0).
  { assert (1 <= inject_Z q_0)
      by (change 1 with (inject_Z 1); rewrite <- Zle_Qle; exact Hq).
    assert (0 <= p_0 * (inject_Z q_0 - 1)) by (apply Qmult_le_0_compat; lra).
    lra. }
  lra.
Qed.

(** *** The levels of the ladder in closed form *)

Lemma round_half_even_proper (x y : Q) :
  x == y -> round_half_even x = round_half_even y.
Proof.
  intros E. apply Z.le_antisymm; apply round_half_even_mono;
    rewrite E; apply Qle_refl.
Qed.

Lemma round2_proper (x y : Q) : x == y -> round2 x = round2 y.
Proof.
  intros E. simpl. unfold Q_round2.
  rewrite (round_half_even_proper (x * 100) (y * 100)); [reflexivity|].
  rewrite E. reflexivity.
Qed.

(** The loop returns the iterates of the step rule that stay above the
    floor. *)
Lemma price_loop_iterates (ty : string) (iv floor : Q) (fuel : nat) :
  forall cur prices out,
    price_loop fuel ty iv floor cur prices = Some out ->
    exists j,
      out = prices ++ map (fun k => Nat.iter (S k) (next_price_of ty iv) cur)
                          (seq 0 j) /\
      (forall k, (k < j)%nat ->
         floor < Nat.iter (S k) (next_price_of ty iv) cur) /\
      Nat.iter (S j) (next_price_of ty iv) cur <= floor.
Proof.
  induction fuel as [|fuel IH]; intros cur prices out Hrun; [discriminate|].
  cbn [price_loop] in Hrun.
  destruct (leb (next_price_of ty iv cur) floor) eqn:Hle.
  - injection Hrun as <-. exists 0%nat. repeat split.
    + symmetry. apply app_nil_r.
    + intros k Hk. lia.
    + apply Qle_bool_iff. exact Hle.
  - apply leb_false_iff in Hle.
    destruct (IH _ _ _ Hrun) as (j & -> & Habove & Hbelow).
    exists (S j). repeat split.
    + rewrite <- app_assoc. f_equal. cbn [seq map app]. f_equal.
      rewrite <- seq_shift, map_map. apply map_ext. intros k.
      symmetry. apply Nat.iter_succ_r.
    + intros [|k] Hk; [exact Hle|].
      specialize (Habove k ltac:(lia)).
      rewrite (Nat.iter_succ_r (S k)). exact Habove.
    + rewrite (Nat.iter_succ_r (S j)). exact Hbelow.
Qed.

Lemma iter_absolute (step start : Q) (k : nat) :
  Nat.iter k (next_price_of "$" step) start
  == start - inject_Z (Z.of_nat k) * step.
Proof.
  induction k as [|k IH].
  - simpl. ring.
  - rewrite Nat2Z.inj_succ, <- Z.add_1_r, inject_Z_plus.
    rewrite Nat.iter_succ.
    set (x := Nat.iter k (next_price_of "$" step) start) in *.
    unfold next_price_of. cbn [String.eqb Ascii.eqb Bool.eqb sub Exact].
    rewrite IH. change (inject_Z 1) with 1. ring.
Qed.

Lemma iter_relative (ty : string) (f start : Q) (k : nat) :
  ty <> "$"%string ->
  Nat.iter k (next_price_of ty f) start == start * (1 - f) ^ Z.of_nat k.
Proof.
  intros Hty. induction k as [|k IH].
  - simpl. ring.
  - rewrite Nat2Z.inj_succ, <- Z.add_1_r, Qpower_plus' by lia.
    rewrite Nat.iter_succ.
    set (x := Nat.iter k (next_price_of ty f) start) in *.
    unfold next_price_of.
    destruct (String.eqb_spec ty "$") as [E|_]; [contradiction|].
    cbn [mul sub of_int Exact]. rewrite IH, Qpower_1_r.
    change (inject_Z 1) with 1. ring.
Qed.

Lemma ceiling_between (x : Q) (j : Z) :
  inject_Z j < x -> x <= inject_Z (j + 1) -> Qceiling x = (j + 1)%Z.
Proof.
  intros Hlo Hhi.
  pose proof (Qle_ceiling x) as H1. pose proof (Qceiling_lt x) as H2.
  assert (Ha : (j < Qceiling x)%Z).
  { rewrite Zlt_Qlt. apply Qlt_le_trans with x; assumption. }
  assert (Hb : (Qceiling x - 1 < j + 1)%Z).
  { rewrite Zlt_Qlt. apply Qlt_le_trans with x; assumption. }
  lia.
Qed.

(** What a ladder returned without a warning is made of. *)
Lemma returned_ladder_iterates
    (fuel : nat) (start floor : Q) (ty : string) (iv : Q) (ladder : list Q) :
  build_price_levels fuel start floor ty iv = Some ([], ladder) ->
  exists j,
    ladder = map round2
               (map (fun k => Nat.iter k (next_price_of ty iv) start)
                    (seq 0 (S j)) ++ [floor]) /\
    (forall k, (1 <= k <= j)%nat ->
       floor < Nat.iter k (next_price_of ty iv) start) /\
    Nat.iter (S j) (next_price_of ty iv) start <= floor.
Proof.
  unfold build_price_levels.
  destruct (leb start floor); [discriminate|].
  destruct (leb iv zero); [discriminate|].
  destruct (price_loop fuel ty iv floor start [start]) as [prices|] eqn:Hloop;
    [|discriminate].
  intros [= <-].
  destruct (price_loop_iterates _ _ _ _ _ _ _ Hloop) as (j & -> & Habove & Hbelow).
  exists j. repeat split.
  - do 2 f_equal. cbn [seq map app]. f_equal.
    rewrite <- seq_shift, map_map. reflexivity.
  - intros [|k] Hk; [lia|]. apply Habove. lia.
  - exact Hbelow.
Qed.

Lemma nth_error_ladder_level (f : nat -> Q) (j : nat) (floor : Q) (i : nat) :
  (i <= j)%nat ->
  nth_error (map round2 (map f (seq 0 (S j)) ++ [floor])) i
  = Some (round2 (f i)).
Proof.
  intros Hi. rewrite map_app, nth_error_app1
    by (rewrite !length_map, length_seq; lia).
  rewrite map_map. rewrite nth_error_map, nth_error_seq.
  replace (i <? S j)%nat with true by (symmetry; apply Nat.ltb_lt; lia).
  reflexivity.
Qed.

Lemma nth_error_ladder_floor (f : nat -> Q) (j : nat) (floor : Q) :
  nth_error (map round2 (map f (seq 0 (S j)) ++ [floor])) (S j)
  = Some (round2 floor).
Proof.
  rewrite map_app, nth_error_app2 by (rewrite !length_map, length_seq; lia).
  rewrite !length_map, length_seq, Nat.sub_diag. reflexivity.
Qed.

(** X9: under the absolute rule, in exact arithmetic, the ladder for
    [start_price > floor_price] and a step [> 0] has
    [n = ceil((start_price - floor_price) / step)] computed levels followed
    by the floor: level [i < n] is [round(start_price - i * step, 2)] and
    level [n] is [round(floor_price, 2)]. *)
Theorem absolute_ladder_levels (start_price floor_price step : Q) (n : nat) :
  floor_price < start_price ->
  0 < step ->
  n = Z.to_nat (Qceiling ((start_price - floor_price) / step)) ->
  exists fuel ladder,
    (forall fuel', (fuel <= fuel')%nat ->
       build_price_levels fuel' start_price floor_price "$" step
       = Some ([], ladder)) /\
    length ladder = S n /\
    (forall i, (i < n)%nat ->
       nth_error ladder i
       = Some (round2 (start_price - inject_Z (Z.of_nat i) * step))) /\
    nth_error ladder n = Some (round2 floor_price).
Proof.
  intros Hsf Hstep Hn.
  destruct (build_price_levels_terminates_exact start_price floor_price "$"
              step Hsf Hstep (or_introl eq_refl)) as (fuel & ladder & Hret).
  exists fuel, ladder. split; [exact Hret|].
  destruct (returned_ladder_iterates _ _ _ _ _ _ (Hret fuel (Nat.le_refl _)))
    as (j & -> & Habove & Hbelow).
  assert (Hj : n = S j).
  { rewrite Hn, (ceiling_between _ (Z.of_nat j)); [lia | |].
    - apply Qlt_shift_div_l; [exact Hstep|].
      destruct j as [|j].
      + change (inject_Z (Z.of_nat 0)) with 0. lra.
      + specialize (Habove (S j) ltac:(lia)).
        rewrite iter_absolute in Habove. lra.
    - apply Qle_shift_div_r; [exact Hstep|].
      rewrite iter_absolute, Nat2Z.inj_succ, <- Z.add_1_r in Hbelow. lra. }
  subst n. rewrite Hj. repeat split.
  - rewrite length_map, length_app, length_map, length_seq. simpl. lia.
  - intros i Hi. rewrite nth_error_ladder_level by lia.
    f_equal. apply round2_proper. apply iter_absolute.
  - apply nth_error_ladder_floor.
Qed.

(** X10: under the relative rule, in exact arithmetic, for
    [start_price > floor_price > 0] and a fraction [> 0], the ladder has one
    level per power of [1 - fraction] that stays above the floor: level [i]
    is [round(start_price * (1 - fraction)^i, 2)] for [i < n], where [n] is
    the first exponent at which the product reaches the floor, and level
    [n] is [round(floor_price, 2)]. *)
Theorem relative_ladder_levels
    (start_price floor_price : Q) (interval_type : string) (fraction : Q) :
  interval_type <> "$"%string ->
  floor_price < start_price ->
  0 < floor_price ->
  0 < fraction ->
  exists fuel ladder n,
    (forall fuel', (fuel <= fuel')%nat ->
       build_price_levels fuel' start_price floor_price interval_type fraction
       = Some ([], ladder)) /\
    length ladder = S n /\
    (1 <= n)%nat /\
    start_price * (1 - fraction) ^ Z.of_nat n <= floor_price /\
    (forall i, (i < n)%nat ->
       floor_price < start_price * (1 - fraction) ^ Z.of_nat i /\
       nth_error ladder i
       = Some (round2 (start_price * (1 - fraction) ^ Z.of_nat i))) /\
    nth_error ladder n = Some (round2 floor_price).
Proof.
  intros Hty Hsf Hfloor Hf.
  destruct (build_price_levels_terminates_exact start_price floor_price
              interval_type fraction Hsf Hf (or_intror Hfloor))
    as (fuel & ladder & Hret).
  destruct (returned_ladder_iterates _ _ _ _ _ _ (Hret fuel (Nat.le_refl _)))
    as (j & -> & Habove & Hbelow).
  eexists fuel, _, (S j). split; [exact Hret|]. repeat split.
  - rewrite length_map, length_app, length_map, length_seq. simpl. lia.
  - lia.
  - rewrite <- (iter_relative interval_type) by exact Hty. exact Hbelow.
  - destruct i as [|i].
    + simpl. lra.
    + rewrite <- (iter_relative interval_type) by exact Hty.
      apply Habove. lia.
  - rewrite nth_error_ladder_level by lia.
    f_equal. apply round2_proper. apply iter_relative. exact Hty.
  - apply nth_error_ladder_floor.
Qed.

(** *** The candidate [Q0 = 0] *)

Lemma buy_at_nothing_held (m p_i sp : Q) :
  sp == 0 -> buy_at m p_i sp 0 = Ok 0%Z.
Proof.
  intros Hsp. unfold buy_at, py_div.
  destruct (eqb (mul m p_i) zero); simpl; [reflexivity|].
  set (x := (sp - (inject_Z 1 + m) * p_i * inject_Z 0) / (m * p_i)).
  assert (Hx : x == 0).
  { unfold x, Qdiv. rewrite Hsp. change (inject_Z 0) with 0. ring. }
  assert (Hle : Qle_bool (inject_Z 0) x = true).
  { apply Qle_bool_iff. rewrite Hx. apply Qle_refl. }
  rewrite Hle. simpl. rewrite Hx. reflexivity.
Qed.

Lemma topups_nothing_held (m : Q) (ps : list Q) :
  forall sp, sp == 0 -> topups m ps sp 0 = Ok (repeat 0%Z (length ps)).
Proof.
  induction ps as [|p ps IH]; intros sp Hsp; simpl; [reflexivity|].
  rewrite (buy_at_nothing_held m p sp Hsp). simpl.
  rewrite IH; [reflexivity|].
  rewrite Hsp. change (inject_Z 0) with 0. ring.
Qed.

Lemma cost_of_nothing (ps : list Q) (k : nat) :
  forall a, fold_left add (map cost_of (combine ps (repeat 0%Z k))) a == a.
Proof.
  revert k. induction ps as [|p ps IH]; intros [|k] a; simpl;
    try reflexivity.
  rewrite IH. unfold cost_of. simpl. change (inject_Z 0) with 0. ring.
Qed.

(** X11: the first candidate of the scan, [Q0 = 0], buys nothing at any
    level and costs 0, whatever the ladder and the tolerance; so it passes
    the budget test for every budget [>= 0] (and is then skipped by
    [Q0 > best_Q0]). *)
Theorem zero_lot_schedule (prices : list Q) (budget m : Q) :
  prices <> [] ->
  exists c,
    schedule prices m 0 = Ok (repeat 0%Z (length prices), c) /\
    c == 0 /\
    (0 <= budget -> feasible prices budget m 0).
Proof.
  intros Hne. destruct prices as [|p_0 ps]; [congruence|].
  assert (Hsched : schedule (p_0 :: ps) m 0
                   = Ok (repeat 0%Z (length (p_0 :: ps)),
                         total_cost_of (p_0 :: ps)
                           (repeat 0%Z (length (p_0 :: ps))))).
  { rewrite exact_schedule_cons, topups_nothing_held; [reflexivity|].
    simpl. change (inject_Z 0) with 0. ring. }
  assert (Hc : total_cost_of (p_0 :: ps) (repeat 0%Z (length (p_0 :: ps))) == 0).
  { unfold total_cost_of, py_sum. rewrite cost_of_nothing. reflexivity. }
  eexists. split; [exact Hsched|]. split; [exact Hc|].
  intros Hb. eexists. split; [exact Hsched|].
  apply Qle_bool_iff. simpl snd. rewrite Hc. exact Hb.
Qed.

End ExactCoverage.

(** ** The further properties at work on concrete inputs *)

Module CoverageRuns.

Local Open Scope Q_scope.
Import Ladder.

Lemma ladder_shape_any_arithmetic_witness :
  hd_error Demo.ladder = Some (round2 75) /\
  (leb 75 60 = false ->
   last Demo.ladder (round2 75) = round2 60 /\
   (2 <= length Demo.ladder)%nat) /\
  (@nil string = [] ->
   exists mids,
     Demo.ladder = map round2 (75 :: mids ++ [60]) /\
     Forall (fun x => leb x 60 = false) mids).
Proof.
  apply (ladder_shape_any_arithmetic 10 75 60 "$" (5 # 2) [] Demo.ladder).
  vm_compute. reflexivity.
Defined.

Lemma find_on_empty_ladder_or_negative_bound_witness :
  find_optimal_allocation (@nil Q) 100 (2 # 100) 10 = Raise IndexError /\
  find_optimal_allocation Demo.ladder 100 (2 # 100) (-1) = Ok None.
Proof.
  split.
  - apply (proj1 (find_on_empty_ladder_or_negative_bound
                    Demo.ladder 100 (2 # 100) 10)). lia.
  - apply (proj2 (find_on_empty_ladder_or_negative_bound
                    Demo.ladder 100 (2 # 100) (-1))). lia.
Defined.

Lemma best_Q0_monotone_in_search_bound_witness :
  exists best1 r1,
    scan Demo.ladder 100000 (2 # 100) 3 = Ok (best1, r1) /\
    (best1 <= 4)%Z /\
    (r1 <> None -> Some (Demo.shares, Demo.cost) <> None).
Proof.
  apply (best_Q0_monotone_in_search_bound
           Demo.ladder 100000 (2 # 100) 3 30 4 (Some (Demo.shares, Demo.cost))).
  - lia.
  - vm_compute. reflexivity.
Defined.

Lemma single_level_allocation_witness :
  find_optimal_allocation [50] 1000 (2 # 100) 10000
  = Ok (if (1 <=? Z.min 10000 (Qfloor (1000 / 50)))%Z
        then Some ([Z.min 10000 (Qfloor (1000 / 50))],
                   total_cost_of [50] [Z.min 10000 (Qfloor (1000 / 50))])
        else None).
Proof.
  apply (ExactCoverage.single_level_allocation 50 1000 (2 # 100) 10000).
  reflexivity.
Defined.

Lemma first_level_within_budget_witness :
  (forall shares c,
      find_optimal_allocation (75 :: tl Demo.ladder) 100000 (2 # 100) 30
      = Ok (Some (shares, c)) ->
      exists q_0 rest,
        shares = q_0 :: rest /\ (1 <= q_0)%Z /\
        75 * inject_Z q_0 <= c /\ c <= 100000) /\
  (0 <= 75 -> 100000 < 75 ->
   find_optimal_allocation (75 :: tl Demo.ladder) 100000 (2 # 100) 30
   = Ok None).
Proof.
  apply (ExactCoverage.first_level_within_budget
           75 (tl Demo.ladder) 100000 (2 # 100) 30).
  repeat constructor; discriminate.
Defined.

Lemma absolute_ladder_levels_witness :
  exists fuel ladder,
    (forall fuel', (fuel <= fuel')%nat ->
       build_price_levels fuel' 75 60 "$" (5 # 2) = Some ([], ladder)) /\
    length ladder = 7%nat /\
    (forall i, (i < 6)%nat ->
       nth_error ladder i
       = Some (round2 (75 - inject_Z (Z.of_nat i) * (5 # 2)))) /\
    nth_error ladder 6 = Some (round2 60).
Proof.
  apply (ExactCoverage.absolute_ladder_levels 75 60 (5 # 2) 6);
    reflexivity.
Defined.

Lemma relative_ladder_levels_witness :
  exists fuel ladder n,
    (forall fuel', (fuel <= fuel')%nat ->
       build_price_levels fuel' 75 60 "%" (5 # 100) = Some ([], ladder)) /\
    length ladder = S n /\
    (1 <= n)%nat /\
    75 * (1 - (5 # 100)) ^ Z.of_nat n <= 60 /\
    (forall i, (i < n)%nat ->
       60 < 75 * (1 - (5 # 100)) ^ Z.of_nat i /\
       nth_error ladder i
       = Some (round2 (75 * (1 - (5 # 100)) ^ Z.of_nat i))) /\
    nth_error ladder n = Some (round2 60).
Proof.
  apply (ExactCoverage.relative_ladder_levels 75 60 "%" (5 # 100));
    try reflexivity.
  discriminate.
Defined.

Lemma zero_lot_schedule_witness :
  exists c,
    schedule Demo.ladder (2 # 100) 0
    = Ok (repeat 0%Z (length Demo.ladder), c) /\
    c == 0 /\
    (0 <= 100 -> feasible Demo.ladder 100 (2 # 100) 0).
Proof.
  apply (ExactCoverage.zero_lot_schedule Demo.ladder 100 (2 # 100)).
  discriminate.
Defined.

Section FloatRuns.

#[local] Existing Instance B64.Float.

Lemma run_simulation_outcomes_witness :
  exists prices,
    build_price_levels 0 (B64.of_Q 50) (B64.of_Q 60) "$" (B64.of_Q (5 # 2))
    = Some ([warning_start_above_floor], prices) /\
    prices <> [] /\
    (forall e, Ok (Success (B64.of_Q 1000) [Demo.inverted_row]) = Raise e ->
               e = OverflowError \/ e = ValueError) /\
    (forall message,
        Ok (Success (B64.of_Q 1000) [Demo.inverted_row])
        = Ok (Failure message) <->
        message = no_solution_message /\
        find_optimal_allocation prices (B64.of_Z 1000) (B64.of_Q (2 # 100))
          max_Q0_search_default
        = Ok None) /\
    (forall total_spent df,
        Ok (Success (B64.of_Q 1000) [Demo.inverted_row])
        = Ok (Success total_spent df) ->
        exists Q total_cost,
          find_optimal_allocation prices (B64.of_Z 1000) (B64.of_Q (2 # 100))
            max_Q0_search_default
          = Ok (Some (Q, total_cost)) /\
          total_spent = round2 total_cost /\
          build_display_df prices Q = Ok df /\
          length df = length prices /\
          Forall (fun row => (1 <= Cumulative_Shares row)%Z) df).
Proof.
  apply (run_simulation_outcomes 0 (B64.of_Z 1000) (B64.of_Q 50) (B64.of_Q 60)
           "$" (B64.of_Q (5 # 2)) (B64.of_Q (2 # 100))).
  vm_compute. reflexivity.
Defined.

End FloatRuns.

End CoverageRuns.
